(** * Unified OHLCV fetcher ([data/fetch_data.py]): model and properties

    The module under study retrieves price bars from Polygon or Yahoo,
    normalizes the table it gets, and keeps the result for fifteen minutes
    in a process-wide dictionary.  The embedding below follows the Python
    text function by function:

    - Python [str] values are [string]s holding the UTF-8 bytes of the
      text.  Module [PyStr] writes out the methods the module uses
      ([lower], [upper], [strip], [title], [join]) for ASCII text, the
      alphabet of the provider schemas, tickers and provider names; it is
      Python's behaviour on strings that satisfy [PyStr.is_ascii] and
      leaves every other byte alone.  Module [PyUnicode] gives [strip] and
      [title] on code points, over a table of case mappings, for the
      column names that are not ASCII;
    - a [pd.DataFrame] is a list of named columns plus an index of row
      labels; duplicate column names are kept, as pandas keeps them;
    - exceptions are values of [Exn] carried by [result];
    - the outside world (environment, clock, HTTP, yfinance, date parsers)
      is a record of oracles, [World];
    - the module-level [_CACHE], the identity of frame objects and the
      observable effects (network requests, printed lines) live in an
      explicit [State]. *)

From Stdlib Require Import ZArith Ascii String List Sorted Lia.
From stdpp Require Import base tactics option list sorting gmap strings pretty.

Local Open Scope Z_scope.

(** ** Python string methods (ASCII) *)

Module PyStr.

Definition code (c : ascii) : N := N_of_ascii c.

Definition is_upper (c : ascii) : bool :=
  ((65 <=? code c) && (code c <=? 90))%N.

Definition is_lower (c : ascii) : bool :=
  ((97 <=? code c) && (code c <=? 122))%N.

(** [c.isalpha()], which for ASCII is also "c is cased". *)
Definition is_cased (c : ascii) : bool := is_upper c || is_lower c.

(** White space as [str.strip()] sees it: TAB..CR, FS..US and SPACE. *)
Definition is_space (c : ascii) : bool :=
  ((9 <=? code c) && (code c <=? 13) || (28 <=? code c) && (code c <=? 32))%N.

Definition to_lower (c : ascii) : ascii :=
  if is_upper c then ascii_of_N (code c + 32) else c.

Definition to_upper (c : ascii) : ascii :=
  if is_lower c then ascii_of_N (code c - 32) else c.

Fixpoint lower (s : string) : string :=
  match s with
  | EmptyString => EmptyString
  | String c s' => String (to_lower c) (lower s')
  end.

Fixpoint upper (s : string) : string :=
  match s with
  | EmptyString => EmptyString
  | String c s' => String (to_upper c) (upper s')
  end.

Definition is_empty (s : string) : bool :=
  match s with EmptyString => true | String _ _ => false end.

Fixpoint lstrip (s : string) : string :=
  match s with
  | EmptyString => EmptyString
  | String c s' => if is_space c then lstrip s' else s
  end.

Fixpoint rstrip (s : string) : string :=
  match s with
  | EmptyString => EmptyString
  | String c s' =>
      let r := rstrip s' in
      if is_space c && is_empty r then EmptyString else String c r
  end.

Definition strip (s : string) : string := rstrip (lstrip s).

(** The case mapping [str.title()] applies at one position: a character
    that follows a cased character is lower-cased, any other character
    is upper-cased. *)
Definition recase (previous_is_cased : bool) (c : ascii) : ascii :=
  if previous_is_cased then to_lower c else to_upper c.

Fixpoint title_from (previous_is_cased : bool) (s : string) : string :=
  match s with
  | EmptyString => EmptyString
  | String c s' => String (recase previous_is_cased c) (title_from (is_cased c) s')
  end.

Definition title (s : string) : string := title_from false s.

(** [sep.join(parts)] *)
Fixpoint join (sep : string) (parts : list string) : string :=
  match parts with
  | [] => EmptyString
  | [p] => p
  | p :: rest => p +:+ sep +:+ join sep rest
  end.

(** [x or y] on strings: the empty string is falsy. *)
Definition or_else (x y : string) : string := if is_empty x then y else x.

(** [x in (a, b, ...)] *)
Definition in_tuple (x : string) (t : list string) : bool :=
  existsb (String.eqb x) t.

(** [s] starts with a lower-case letter. *)
Definition starts_lower (s : string) : Prop :=
  match s with
  | EmptyString => False
  | String k _ => is_lower k = true
  end.

(** Every character of [s] is an ASCII character. *)
Fixpoint is_ascii (s : string) : bool :=
  match s with
  | EmptyString => true
  | String c s' => (code c <? 128)%N && is_ascii s'
  end.


End PyStr.

(** ** Python string methods on code points *)

(** [str.strip()] and [str.title()] as CPython computes them, on the code
    points of the text.  White space is the fixed set of
    [Py_UNICODE_ISSPACE]; the case mappings come from the Unicode
    Character Database, which is not part of the repository and enters
    as a [CaseTable].  The context rule for a capital sigma (U+03A3)
    after a cased letter is not modelled. *)
Module PyUnicode.

Definition is_cont (b : ascii) : bool :=
  ((128 <=? PyStr.code b) && (PyStr.code b <? 192))%N.

Definition low6 (b : ascii) : N := (PyStr.code b - 128)%N.

(** The code points of a UTF-8 byte string.  A byte that does not start
    a well-formed sequence is passed through as it is. *)
Fixpoint codepoints (s : string) : list N :=
  match s with
  | EmptyString => []
  | String b0 s1 =>
      let n0 := PyStr.code b0 in
      match s1 with
      | EmptyString => [n0]
      | String b1 s2 =>
          if ((192 <=? n0) && (n0 <? 224))%N && is_cont b1
          then ((n0 - 192) * 64 + low6 b1)%N :: codepoints s2
          else
            match s2 with
            | EmptyString => n0 :: codepoints s1
            | String b2 s3 =>
                if ((224 <=? n0) && (n0 <? 240))%N && is_cont b1 && is_cont b2
                then ((n0 - 224) * 4096 + low6 b1 * 64 + low6 b2)%N :: codepoints s3
                else
                  match s3 with
                  | EmptyString => n0 :: codepoints s1
                  | String b3 s4 =>
                      if ((240 <=? n0) && (n0 <? 248))%N
                         && is_cont b1 && is_cont b2 && is_cont b3
                      then ((n0 - 240) * 262144 + low6 b1 * 4096 + low6 b2 * 64
                            + low6 b3)%N :: codepoints s4
                      else n0 :: codepoints s1
                  end
            end
      end
  end.

Definition byte (n : N) : ascii := ascii_of_N n.

Definition utf8_char (c : N) : string :=
  if (c <? 128)%N then String (byte c) EmptyString
  else if (c <? 2048)%N then
    String (byte (192 + c / 64)) (String (byte (128 + c mod 64)) EmptyString)
  else if (c <? 65536)%N then
    String (byte (224 + c / 4096))
      (String (byte (128 + (c / 64) mod 64)) (String (byte (128 + c mod 64)) EmptyString))
  else
    String (byte (240 + c / 262144))
      (String (byte (128 + (c / 4096) mod 64))
         (String (byte (128 + (c / 64) mod 64))
            (String (byte (128 + c mod 64)) EmptyString))).

Definition utf8 (l : list N) : string := foldr (λ c acc, utf8_char c +:+ acc) EmptyString l.

(** [Py_UNICODE_ISSPACE] *)
Definition is_space (c : N) : bool :=
  ((9 <=? c) && (c <=? 13) || (28 <=? c) && (c <=? 32)
   || (c =? 133) || (c =? 160) || (c =? 5760)
   || (8192 <=? c) && (c <=? 8202)
   || (c =? 8232) || (c =? 8233) || (c =? 8239) || (c =? 8287) || (c =? 12288))%N.

Fixpoint lstrip (l : list N) : list N :=
  match l with
  | [] => []
  | c :: l' => if is_space c then lstrip l' else l
  end.

Fixpoint rstrip (l : list N) : list N :=
  match l with
  | [] => []
  | c :: l' =>
      let r := rstrip l' in
      if is_space c && bool_decide (r = []) then [] else c :: r
  end.

Definition strip (l : list N) : list N := rstrip (lstrip l).

(** The rows of the Unicode Character Database that [str.title()]
    reads: the full title-case and lower-case mappings and the [Cased]
    property. *)
Record CaseTable : Type := mkCaseTable {
  to_title : N → list N;
  to_lower : N → list N;
  is_cased : N → bool
}.

Fixpoint title_from (T : CaseTable) (previous_is_cased : bool) (l : list N) : list N :=
  match l with
  | [] => []
  | c :: l' =>
      (if previous_is_cased then to_lower T c else to_title T c)
      ++ title_from T (is_cased T c) l'
  end.

Definition title (T : CaseTable) (l : list N) : list N := title_from T false l.

(** [c.strip().title()] on a string held as UTF-8 bytes. *)
Definition strip_title (T : CaseTable) (c : string) : string :=
  utf8 (title T (strip (codepoints c))).

(** The code points of ASCII text, one per character. *)
Fixpoint codes (s : string) : list N :=
  match s with
  | EmptyString => []
  | String c s' => PyStr.code c :: codes s'
  end.

(** A table has the ASCII rows of the Unicode Character Database. *)
Definition ascii_rows (T : CaseTable) : Prop :=
  ∀ b : ascii, (PyStr.code b < 128)%N →
    to_title T (PyStr.code b) = [PyStr.code (PyStr.to_upper b)]
    ∧ to_lower T (PyStr.code b) = [PyStr.code (PyStr.to_lower b)]
    ∧ is_cased T (PyStr.code b) = PyStr.is_cased b.

(** The rows used in the examples: ASCII; U+01F0, a cased lower-case
    letter whose title-case form is the two code points U+004A U+030C;
    U+030C, a combining mark that is not cased and maps to itself.  On
    every other code point this table is the identity, which is not what
    Unicode says; the examples do not go there. *)
Definition sample_rows : CaseTable :=
  mkCaseTable
    (λ c, if (c <? 128)%N then [PyStr.code (PyStr.to_upper (byte c))]
          else if (c =? 496)%N then [74; 780]%N else [c])
    (λ c, if (c <? 128)%N then [PyStr.code (PyStr.to_lower (byte c))] else [c])
    (λ c, if (c <? 128)%N then PyStr.is_cased (byte c) else (c =? 496)%N).

End PyUnicode.

(** ** Exceptions and results *)

(** Exceptions the module raises itself or receives from the libraries it
    calls.  Every constructor stands for a subclass of Python's
    [Exception], which is what the [except Exception] clause of
    [fetch_ohlcv] intercepts. *)
Inductive KeyPayload : Type :=
  | KeyStr (key : string)
  | KeyList (keys : list string).

Inductive Exn : Type :=
  | ValueError (msg : string)
  | KeyError (payload : KeyPayload)
  | AttributeError (msg : string)
  | LibraryError (cls : string) (msg : string).

(** [repr] of a string without quotes or backslashes, and of a list of
    such strings. *)
Definition str_repr (s : string) : string := "'" +:+ s +:+ "'".

Definition list_repr (l : list string) : string :=
  "[" +:+ PyStr.join ", " (str_repr <$> l) +:+ "]".

(** [str] of a [KeyError] is the [repr] of its argument. *)
Definition key_repr (payload : KeyPayload) : string :=
  match payload with
  | KeyStr key => str_repr key
  | KeyList keys => list_repr keys
  end.

(** [str(e)], as interpolated in the fallback warning. *)
Definition exn_str (e : Exn) : string :=
  match e with
  | ValueError msg => msg
  | KeyError payload => key_repr payload
  | AttributeError msg => msg
  | LibraryError _ msg => msg
  end.

Inductive result (A : Type) : Type :=
  | Ok (a : A)
  | Err (e : Exn).
Arguments Ok {A} a.
Arguments Err {A} e.

Definition rbind {A B} (r : result A) (k : A → result B) : result B :=
  match r with
  | Ok a => k a
  | Err e => Err e
  end.

Notation "x ←ᵣ r ; k" := (rbind r (λ x, k))
  (at level 100, r at next level, right associativity).

Fixpoint rmapM {A B} (f : A → result B) (l : list A) : result (list B) :=
  match l with
  | [] => Ok []
  | x :: l' => y ←ᵣ f x; ys ←ᵣ rmapM f l'; Ok (y :: ys)
  end.

(** ** Tables *)

(** A cell is a number or pandas' null.  The fetcher never computes with
    prices; it only copies them and tests them for null. *)
Inductive Cell : Type :=
  | NaN
  | Num (x : Z).

Definition notna (c : Cell) : bool :=
  match c with NaN => false | Num _ => true end.

(** A row label: text still to be parsed, or a timestamp (epoch
    milliseconds). *)
Inductive Label : Type :=
  | LStr (s : string)
  | LTs (t : Z).

Record DataFrame : Type := mkDF {
  columns : list (string * list Cell);
  index : list Label
}.

Definition column_names (df : DataFrame) : list string := (columns df).*1.

(** [name in df.columns] *)
Definition has_column (name : string) (df : DataFrame) : bool :=
  PyStr.in_tuple name (column_names df).

(** The data of every column called [name], left to right. *)
Definition select (name : string) (df : DataFrame) : list (list Cell) :=
  (filter (λ nc, nc.1 = name) (columns df)).*2.

(** [df.empty]: some axis has length zero. *)
Definition df_empty (df : DataFrame) : bool :=
  match columns df, index df with
  | [], _ | _, [] => true
  | _, _ => false
  end.

(** [df.rename(columns=f)] *)
Definition rename_columns (f : string → string) (df : DataFrame) : DataFrame :=
  mkDF (prod_map f id <$> columns df) (index df).

(** [d.get(k, k)] for a dict written as a list of items. *)
Fixpoint dict_get_or_self (d : list (string * string)) (k : string) : string :=
  match d with
  | [] => k
  | (k', v) :: d' => if String.eqb k k' then v else dict_get_or_self d' k
  end.

(** Rows selected by a boolean mask. *)
Fixpoint keep {A} (mask : list bool) (l : list A) : list A :=
  match mask, l with
  | b :: mask', x :: l' => if b then x :: keep mask' l' else keep mask' l'
  | _, _ => []
  end.

(** The mask of [dropna(subset=[name])]: a row survives when it is
    non-null in every column carrying that name. *)
Definition row_mask (idx : list Label) (cols : list (list Cell)) : list bool :=
  foldr (λ col mask, zip_with andb (notna <$> col) mask)
        ((λ _, true) <$> idx) cols.

(** [df.dropna(subset=[name])]; a name that labels no column raises
    [KeyError([name])]. *)
Definition dropna_subset (name : string) (df : DataFrame) : result DataFrame :=
  match select name df with
  | [] => Err (KeyError (KeyList [name]))
  | cols =>
      let mask := row_mask (index df) cols in
      Ok (mkDF (prod_map id (keep mask) <$> columns df) (keep mask (index df)))
  end.

(** [df[new] = df[src]] for a column name [new] that is not yet present:
    pandas refuses a multi-column right-hand side. *)
Definition setitem_new_from (new src : string) (df : DataFrame) : result DataFrame :=
  match select src df with
  | [col] => Ok (mkDF (columns df ++ [(new, col)]) (index df))
  | [] => Err (KeyError (KeyStr src))
  | _ => Err (ValueError
            ("Cannot set a DataFrame with multiple columns to the single column "
             +:+ new))
  end.

(** ** The outside world *)

(** One element of the [results] array of the JSON body.  For each of
    the keys o, h, l, c, v the row either lacks the key ([None]) or
    carries a number or null; the timestamp [t] (epoch milliseconds) is
    taken to be present in every row. *)
Record Agg : Type := mkAgg {
  agg_t : Z;
  agg_o : option Cell;
  agg_h : option Cell;
  agg_l : option Cell;
  agg_c : option Cell;
  agg_v : option Cell
}.

Record Response : Type := mkResponse {
  status_code : Z;
  text : string;
  (** [r.json()] then [.get("results", [])]: decoding may raise; the key
      may be missing. *)
  json_results : result (option (list Agg))
}.

Record World : Type := mkWorld {
  (** [os.getenv("POLYGON_API_KEY")], [None] when unset *)
  env_POLYGON_API_KEY : option string;
  (** [datetime.utcnow().date()] as a day number *)
  utc_today : Z;
  (** [date.isoformat()] *)
  isoformat : Z → string;
  (** [dateparser.parse(d).date()] *)
  dateparser_parse : string → result Z;
  (** [pd.to_datetime] on one textual label *)
  to_datetime_str : string → result Z;
  (** [time.time()] truncated, at the n-th reading of the clock *)
  time_time : nat → Z;
  (** [requests.get(url, params=..., timeout=30)] *)
  requests_get : string → list (string * string) → result Response;
  (** [yf.download(ticker, start=, end=, interval=, auto_adjust=False, ...)] *)
  yf_download : string → string → string → string → result DataFrame
}.

(** Effects a caller or an operator can observe. *)
Inductive Event : Type :=
  | HttpGet (url : string) (params : list (string * string))
  | YfDownload (ticker start end_ interval : string)
  | Print (line : string).

Definition is_yahoo_call (ev : Event) : bool :=
  match ev with
  | YfDownload _ _ _ _ => true
  | _ => false
  end.

(** ** Config *)

Definition _TTL_SEC : Z := 15 * 60.

Definition _POLYGON_URL (ticker multiplier timespan start end_ : string) : string :=
  "https://api.polygon.io/v2/aggs/ticker/" +:+ ticker +:+ "/range/" +:+ multiplier
  +:+ "/" +:+ timespan +:+ "/" +:+ start +:+ "/" +:+ end_.

(** ** Utilities *)

(** [sorted(kw.items())]: keyword names are distinct, so the order is the
    order of the names. *)
Definition items_le (a b : string * string) : Prop := String.le a.1 b.1.

Local Instance items_le_dec : RelDecision items_le.
Proof. intros a b. unfold items_le. apply _. Defined.

Definition _cache_key (kw : list (string * string)) : string :=
  PyStr.join "|" ((λ kv, kv.1 +:+ "=" +:+ kv.2) <$> merge_sort items_le kw).

(** [latest_close_date]: [df.index[-1]] fails on an empty index. *)
Definition latest_close_date (w : World) (df : DataFrame) : result Z :=
  match last (index df) with
  | None => Err (LibraryError "IndexError" "index -1 is out of bounds for axis 0 with size 0")
  | Some (LTs t) => Ok t
  | Some (LStr s) => to_datetime_str w s
  end.

(** The [rename] dict of [_normalize_df]. *)
Definition rename : list (string * string) :=
  [ ("open", "Open"); ("high", "High"); ("low", "Low"); ("close", "Close");
    ("volume", "Volume"); ("adjclose", "Adj Close"); ("adj_close", "Adj Close") ].

(** [pd.to_datetime] on one label, then on the whole index. *)
Definition to_datetime (w : World) (l : Label) : result Label :=
  match l with
  | LTs t => Ok (LTs t)
  | LStr s => t ←ᵣ to_datetime_str w s; Ok (LTs t)
  end.

(** The body of [_normalize_df], with the first renaming
    [lambda c: c.strip().title()] as the parameter [canon].  The argument
    is optional because [fetch_ohlcv] can reach the call with
    [df = None]. *)
Definition _normalize_df_with (canon : string → string) (w : World)
    (df : option DataFrame) : result DataFrame :=
  match df with
  | None => Err (AttributeError "'NoneType' object has no attribute 'rename'")
  | Some df =>
      let df := rename_columns canon df in
      let df := rename_columns (dict_get_or_self rename) df in
      df ←ᵣ (if negb (has_column "Adj Close" df) && has_column "Close" df
             then setitem_new_from "Adj Close" "Close" df
             else Ok df);
      idx ←ᵣ rmapM (to_datetime w) (index df);
      let df := mkDF (columns df) idx in
      dropna_subset "Close" df
  end.

(** [_normalize_df] on tables whose column names are ASCII text. *)
Definition _normalize_df (w : World) (df : option DataFrame) : result DataFrame :=
  _normalize_df_with (λ c, PyStr.title (PyStr.strip c)) w df.

(** ** Yahoo provider *)

Definition _fetch_yahoo (w : World) (ticker start end_ interval : string)
  : result DataFrame * list Event :=
  let evs := [YfDownload ticker start end_ interval] in
  match yf_download w ticker start end_ interval with
  | Err e => (Err e, evs)
  | Ok df =>
      if df_empty df
      then (Err (ValueError ("No Yahoo data for " +:+ ticker)), evs)
      else (_normalize_df w (Some df), evs)
  end.

(** ** Polygon provider *)

Definition agg_le (a b : Agg) : Prop := agg_t a ≤ agg_t b.

Local Instance agg_le_dec : RelDecision agg_le.
Proof. intros a b. unfold agg_le. apply _. Defined.

(** Ordering rows by date.  Rows with equal dates keep the order in which
    they arrived. *)
Fixpoint insert_by_date (a : Agg) (l : list Agg) : list Agg :=
  match l with
  | [] => [a]
  | b :: l' => if decide (agg_le a b) then a :: b :: l' else b :: insert_by_date a l'
  end.

Definition sort_by_date (l : list Agg) : list Agg := foldr insert_by_date [] l.

(** [pd.DataFrame(results)] has a column for a key as soon as one row
    carries it; rows without the key hold null there. *)
Definition has_key (field : Agg → option Cell) (results : list Agg) : bool :=
  existsb (λ a, bool_decide (is_Some (field a))) results.

Definition cell_of (field : Agg → option Cell) (a : Agg) : Cell :=
  default NaN (field a).

(** [pd.to_datetime(t, unit="ms")] needs the instant to fit in 64-bit
    nanoseconds. *)
Definition timestamp_in_bounds (t : Z) : bool :=
  (-9223372036854 <=? t) && (t <=? 9223372036854).

(** The frame built from the [results] array: columns renamed and
    selected, [Adj Close] copied from [Close], rows ordered by [Date]
    ([sort_index] moves whole rows, so the records are ordered before
    they are laid out in columns). *)
Definition polygon_frame (results : list Agg) : DataFrame :=
  let rows := sort_by_date results in
  mkDF [ ("Open", cell_of agg_o <$> rows); ("High", cell_of agg_h <$> rows);
         ("Low", cell_of agg_l <$> rows); ("Close", cell_of agg_c <$> rows);
         ("Adj Close", cell_of agg_c <$> rows); ("Volume", cell_of agg_v <$> rows) ]
       ((λ a, LTs (agg_t a)) <$> rows).

(** The columns that [df[["Open", ..., "Volume"]]] does not find. *)
Definition missing_columns (results : list Agg) : list string :=
  (if has_key agg_o results then [] else ["Open"])
  ++ (if has_key agg_h results then [] else ["High"])
  ++ (if has_key agg_l results then [] else ["Low"])
  ++ (if has_key agg_v results then [] else ["Volume"]).

Definition _polygon_aggs (w : World) (ticker start end_ timespan : string)
    (multiplier : Z) (api_key : string) : result DataFrame * list Event :=
  let url := _POLYGON_URL (PyStr.upper ticker) (pretty multiplier) timespan start end_ in
  let params := [ ("adjusted", "true"); ("sort", "asc"); ("limit", "50000");
                  ("apiKey", api_key) ] in
  let evs := [HttpGet url params] in
  match requests_get w url params with
  | Err e => (Err e, evs)
  | Ok r =>
      if negb (status_code r =? 200)
      then (Err (ValueError ("Polygon error " +:+ pretty (status_code r) +:+ ": "
                             +:+ text r)), evs)
      else
        match json_results r with
        | Err e => (Err e, evs)
        | Ok js =>
            match default [] js with
            | [] => (Err (ValueError ("No Polygon data for " +:+ ticker)), evs)
            | results =>
                if negb (forallb (λ a, timestamp_in_bounds (agg_t a)) results)
                then (Err (LibraryError "OutOfBoundsDatetime"
                             "cannot convert input with unit 'ms'"), evs)
                else if negb (has_key agg_c results)
                then (Err (KeyError (KeyStr "Close")), evs)
                else
                  match missing_columns results with
                  | [] => (Ok (polygon_frame results), evs)
                  | missing =>
                      (Err (KeyError (KeyStr (list_repr missing +:+ " not in index"))),
                       evs)
                  end
            end
        end
  end.

(** The inner [norm] of [_fetch_polygon]. *)
Definition norm (w : World) (d : option string) : result (option string) :=
  match d with
  | None => Ok None
  | Some d => day ←ᵣ dateparser_parse w d; Ok (Some (isoformat w day))
  end.

(** [x or y] where [x] is [None] or a string. *)
Definition opt_or_else (x : option string) (y : string) : string :=
  match x with
  | None => y
  | Some x => PyStr.or_else x y
  end.

(** [not api_key]: [None] and the empty string are falsy. *)
Definition key_missing (api_key : option string) : bool :=
  match api_key with
  | None => true
  | Some k => PyStr.is_empty k
  end.

Definition _fetch_polygon (w : World) (ticker : string) (start end_ : option string)
    (interval : string) (api_key : option string) : result DataFrame * list Event :=
  if key_missing api_key
  then (Err (ValueError "POLYGON_API_KEY not set."), [])
  else
    match norm w start with
    | Err e => (Err e, [])
    | Ok s0 =>
        let start := opt_or_else s0 (isoformat w (utc_today w - 365 * 2)) in
        match norm w end_ with
        | Err e => (Err e, [])
        | Ok e0 =>
            let end_ := opt_or_else e0 (isoformat w (utc_today w)) in
            if PyStr.in_tuple (PyStr.lower interval) ["1m"; "1min"; "minute"]
            then _polygon_aggs w ticker start end_ "minute" 1 (default "" api_key)
            else _polygon_aggs w ticker start end_ "day" 1 (default "" api_key)
        end
    end.

(** ** Process state *)

(** Frame objects have an identity: a location in the heap. *)
Abbreviation loc := positive.

(** One value of [_CACHE]: [{"ts": ..., "df": ...}]. *)
Record CacheEntry : Type := mkEntry {
  entry_ts : Z;
  entry_df : loc
}.

Record State : Type := mkState {
  heap : gmap loc DataFrame;
  _CACHE : gmap string CacheEntry;
  trace : list Event;
  clock_reads : nat
}.

Definition initial_state : State := mkState ∅ ∅ [] 0.

(** A new frame object. *)
Definition alloc (df : DataFrame) (s : State) : loc * State :=
  let l := fresh (dom (heap s)) in
  (l, mkState (<[l := df]> (heap s)) (_CACHE s) (trace s) (clock_reads s)).

(** [obj.copy()]: a new object with the same contents. *)
Definition copy (l : loc) (s : State) : loc * State :=
  alloc (default (mkDF [] []) (heap s !! l)) s.

Definition emit (evs : list Event) (s : State) : State :=
  mkState (heap s) (_CACHE s) (trace s ++ evs) (clock_reads s).

(** [_now()] *)
Definition _now (w : World) (s : State) : Z * State :=
  (time_time w (clock_reads s),
   mkState (heap s) (_CACHE s) (trace s) (S (clock_reads s))).

Definition cache_store (key : string) (e : CacheEntry) (s : State) : State :=
  mkState (heap s) (<[key := e]> (_CACHE s)) (trace s) (clock_reads s).

(** The frame a cache key currently stands for. *)
Definition cached_frame (s : State) (key : string) : option DataFrame :=
  e ← _CACHE s !! key; heap s !! entry_df e.

(** ** Unified fetch (with fallback + cache) *)

(** [(provider or "auto").lower().strip()] *)
Definition resolve_provider (provider : option string) : string :=
  PyStr.strip (PyStr.lower (opt_or_else provider "auto")).

(** The key [fetch_ohlcv] computes for a request. *)
Definition request_key (ticker start end_ interval provider : string) : string :=
  _cache_key [ ("ticker", PyStr.upper ticker); ("start", start); ("end", end_);
               ("interval", interval); ("provider", provider) ].

(** The [try]/[except] block around the Polygon call.  [Ok None] means
    that [df] is still [None] afterwards. *)
Definition polygon_stage (w : World) (ticker start end_ interval provider : string)
    (s : State) : result (option DataFrame) * State :=
  if PyStr.in_tuple provider ["polygon"; "auto"] then
    let api_key := default "" (env_POLYGON_API_KEY w) in
    let '(r, evs) := _fetch_polygon w ticker (Some start) (Some end_) interval
                                    (Some api_key) in
    let s := emit evs s in
    match r with
    | Ok df => (Ok (Some df), s)
    | Err e =>
        if String.eqb provider "polygon" then (Err e, s)
        else (Ok None,
              emit [Print ("[WARN] Polygon failed (" +:+ exn_str e
                           +:+ "); falling back to Yahoo.")] s)
    end
  else (Ok None, s).

(** [if df is None and provider in ("yahoo", "auto"): df = _fetch_yahoo(...)] *)
Definition yahoo_stage (w : World) (ticker start end_ interval provider : string)
    (df : option DataFrame) (s : State) : result (option DataFrame) * State :=
  match df with
  | Some _ => (Ok df, s)
  | None =>
      if PyStr.in_tuple provider ["yahoo"; "auto"] then
        let '(r, evs) := _fetch_yahoo w ticker start end_ interval in
        (d ←ᵣ r; Ok (Some d), emit evs s)
      else (Ok None, s)
  end.

(** The last three lines: normalize, store a copy under the key, return
    the normalized object itself. *)
Definition store_stage (w : World) (cache_key : string) (df : option DataFrame)
    (s : State) : result loc * State :=
  match _normalize_df w df with
  | Err e => (Err e, s)
  | Ok out =>
      let '(l, s) := alloc out s in
      let '(now, s) := _now w s in
      let '(l', s) := copy l s in
      (Ok l, cache_store cache_key (mkEntry now l') s)
  end.

(** Everything after the cache test. *)
Definition fetch_fresh (w : World) (ticker start end_ interval provider cache_key : string)
    (s : State) : result loc * State :=
  match polygon_stage w ticker start end_ interval provider s with
  | (Err e, s) => (Err e, s)
  | (Ok df, s) =>
      match yahoo_stage w ticker start end_ interval provider df s with
      | (Err e, s) => (Err e, s)
      | (Ok df, s) => store_stage w cache_key df s
      end
  end.

Definition fetch_ohlcv (w : World) (ticker : string) (start end_ : option string)
    (interval : string) (provider : option string) (s : State) : result loc * State :=
  let end_ := default (isoformat w (utc_today w)) end_ in
  let start := default (isoformat w (utc_today w - 365 * 2)) start in
  let provider := resolve_provider provider in
  let cache_key := request_key ticker start end_ interval provider in
  match _CACHE s !! cache_key with
  | None => fetch_fresh w ticker start end_ interval provider cache_key s
  | Some e =>
      let '(now, s) := _now w s in
      if now - entry_ts e <? _TTL_SEC
      then let '(l, s) := copy (entry_df e) s in (Ok l, s)
      else fetch_fresh w ticker start end_ interval provider cache_key s
  end.

(** ** Vocabulary for statements about [fetch_ohlcv] *)

(** The request defaults applied by the first two [if]s. *)
Definition effective_start (w : World) (start : option string) : string :=
  default (isoformat w (utc_today w - 365 * 2)) start.

Definition effective_end (w : World) (end_ : option string) : string :=
  default (isoformat w (utc_today w)) end_.

(** The key under which a call looks up and stores its result. *)
Definition fetch_key (w : World) (ticker : string) (start end_ : option string)
    (interval : string) (provider : option string) : string :=
  request_key ticker (effective_start w start) (effective_end w end_) interval
              (resolve_provider provider).

(** The cache test of [fetch_ohlcv]: the key is present and younger than
    the TTL at the moment the clock is read. *)
Definition cache_fresh (w : World) (s : State) (key : string) : bool :=
  match _CACHE s !! key with
  | None => false
  | Some e => time_time w (clock_reads s) - entry_ts e <? _TTL_SEC
  end.

(** The state after a failed cache test: the clock was read only if the
    key was present. *)
Definition after_cache_test (w : World) (key : string) (s : State) : State :=
  match _CACHE s !! key with
  | None => s
  | Some _ => (_now w s).2
  end.

(** The adapter calls exactly as [fetch_ohlcv] issues them. *)
Definition polygon_call (w : World) (ticker : string) (start end_ : option string)
    (interval : string) : result DataFrame * list Event :=
  _fetch_polygon w ticker (Some (effective_start w start)) (Some (effective_end w end_))
                 interval (Some (default "" (env_POLYGON_API_KEY w))).

Definition yahoo_call (w : World) (ticker : string) (start end_ : option string)
    (interval : string) : result DataFrame * list Event :=
  _fetch_yahoo w ticker (effective_start w start) (effective_end w end_) interval.

(** The line printed on an auto-mode fallback. *)
Definition fallback_warning (e : Exn) : Event :=
  Print ("[WARN] Polygon failed (" +:+ exn_str e +:+ "); falling back to Yahoo.").

(** Every frame the cache refers to exists. *)
Definition cache_wf (s : State) : Prop :=
  ∀ key e, _CACHE s !! key = Some e → is_Some (heap s !! entry_df e).

(** A caller changing the object it holds, in any way. *)
Definition mutate (l : loc) (df : DataFrame) (s : State) : State :=
  mkState (<[l := df]> (heap s)) (_CACHE s) (trace s) (clock_reads s).


(** ** A small world for examples *)

Definition demo_frame (dates : list Z) (close adj : list Cell) : DataFrame :=
  mkDF [("Close", close); ("Adj Close", adj)] (LTs <$> dates).

(** Today is day 20000; the clock starts at 1000 and advances one second
    per reading; every HTTP request gets [polygon], every download
    [yahoo]. *)
Definition demo_world (yahoo : result DataFrame) (polygon : result Response)
    (key : option string) : World :=
  mkWorld key 20000 (λ d, "D" +:+ pretty d) (λ _, Ok 20000)
          (λ _, Err (ValueError "Unknown datetime string format"))
          (λ n, 1000 + Z.of_nat n) (λ _ _, polygon) (λ _ _ _ _, yahoo).

Definition yahoo_bars : DataFrame := demo_frame [1; 2] [Num 5; Num 6] [Num 5; Num 6].

Definition connect_timeout : Exn := LibraryError "ConnectTimeout" "timed out".

(** Polygon unreachable, credential present. *)
Definition world_polygon_down : World :=
  demo_world (Ok yahoo_bars) (Err connect_timeout) (Some "k").


(** No credential configured. *)
Definition world_no_key : World :=
  demo_world (Ok yahoo_bars) (Err connect_timeout) None.

(** Yahoo returns a single bar whose Close is null. *)
Definition world_yahoo_null_close : World :=
  demo_world (Ok (demo_frame [1] [NaN] [Num 5])) (Err connect_timeout) None.


Definition demo_polygon_request : Event :=
  HttpGet "https://api.polygon.io/v2/aggs/ticker/AAPL/range/1/day/D20000/D20000"
          [("adjusted", "true"); ("sort", "asc"); ("limit", "50000"); ("apiKey", "k")].

Definition demo_yahoo_request : Event := YfDownload "AAPL" "D19270" "D20000" "1d".

Definition demo_key : string :=
  "end=D20000|interval=1d|provider=yahoo|start=D19270|ticker=AAPL".

(** A state whose cache holds one entry for [demo_key], created at [ts]. *)
Definition demo_cached_state (ts : Z) : State :=
  mkState {[ 1%positive := demo_frame [1] [Num 5] [Num 5] ]}
          {[ demo_key := mkEntry ts 1%positive ]} [] 0.

(** ** Series invariants *)

(** The name under which [_normalize_df] files a raw column. *)
Definition canonical_name (c : string) : string := PyStr.title (PyStr.strip c).

Definition is_ts (l : Label) : Prop :=
  match l with LTs _ => True | LStr _ => False end.

Definition label_lt (a b : Label) : Prop :=
  match a, b with
  | LTs x, LTs y => x < y
  | _, _ => False
  end.

(** Dates strictly increasing: every row is earlier than every later row,
    so no date occurs twice. *)
Definition dates_strictly_ascending (df : DataFrame) : Prop :=
  StronglySorted label_lt (index df).

(** Column [name] exists and holds no null. *)
Definition column_populated (name : string) (df : DataFrame) : Prop :=
  select name df ≠ [] ∧ Forall (Forall (λ c, notna c = true)) (select name df).


(** ** Vocabulary for further properties *)

Definition is_network (ev : Event) : bool :=
  match ev with
  | HttpGet _ _ | YfDownload _ _ _ _ => true
  | Print _ => false
  end.

Definition is_print (ev : Event) : bool :=
  match ev with
  | Print _ => true
  | _ => false
  end.

Definition label_le (a b : Label) : Prop :=
  match a, b with
  | LTs x, LTs y => x ≤ y
  | _, _ => False
  end.

(** How many events of a kind a trace holds. *)
Definition count_events (kind : Event → bool) (evs : list Event) : nat :=
  length (List.filter kind evs).

(** Every frame the cache refers to exists, has a Close column without
    nulls and has an Adj Close column. *)
Definition cache_populated (s : State) : Prop :=
  ∀ key e, _CACHE s !! key = Some e →
    ∃ df, heap s !! entry_df e = Some df
          ∧ column_populated "Close" df ∧ has_column "Adj Close" df = true.

(** The Polygon time span [_fetch_polygon] chooses for an interval. *)
Definition polygon_timespan (interval : string) : string :=
  if PyStr.in_tuple (PyStr.lower interval) ["1m"; "1min"; "minute"]
  then "minute" else "day".

(** [c.strip().title()] with the sample rows of the case table. *)
Definition py_strip_title : string → string :=
  PyUnicode.strip_title PyUnicode.sample_rows.

(** A table with a column named U+01F0 "a" beside Close. *)
Definition caron_frame : DataFrame :=
  mkDF [(PyUnicode.utf8 [496; 97]%N, [Num 1]); ("Close", [Num 2])] [LTs 1].

(** A table with prices only, for examples. *)
Definition prices_frame : DataFrame :=
  mkDF [(" close ", [NaN; Num 7; Num 8]); ("adjclose", [Num 1; Num 2; Num 3])]
       [LTs 10; LTs 20; LTs 30].

(** Polygon answers with three bars, out of order, one without a close. *)
Definition demo_aggs : list Agg :=
  [ mkAgg 30 (Some (Num 1)) (Some (Num 2)) (Some (Num 0)) (Some (Num 1)) (Some (Num 100));
    mkAgg 10 (Some (Num 3)) (Some (Num 4)) (Some (Num 2)) (Some NaN) (Some (Num 50));
    mkAgg 20 (Some (Num 5)) (Some (Num 6)) (Some (Num 4)) (Some (Num 5)) (Some (Num 70)) ].

Definition world_polygon_up : World :=
  demo_world (Ok yahoo_bars) (Ok (mkResponse 200 "" (Ok (Some demo_aggs)))) (Some "k").

(** * Properties *)

(** ** Sample evaluations *)

Example title_adj_close : PyStr.title (PyStr.strip "  adj close ") = "Adj Close".
Proof. reflexivity. Qed.

Example title_adjclose : PyStr.title (PyStr.strip "ADJCLOSE") = "Adjclose".
Proof. reflexivity. Qed.

Example title_adj_underscore : PyStr.title "adj_close" = "Adj_Close".
Proof. reflexivity. Qed.

Example join_three : PyStr.join "|" ["a"; "b"; "c"] = "a|b|c".
Proof. reflexivity. Qed.

Example title_beyond_ascii :
  PyUnicode.codepoints (py_strip_title (PyUnicode.utf8 [160; 496; 97; 32]%N))
  = [74; 780; 97]%N
  ∧ PyUnicode.codepoints (py_strip_title (PyUnicode.utf8 [74; 780; 97]%N))
    = [74; 780; 65]%N.
Proof. split; vm_compute; reflexivity. Qed.

Example utf8_round_trip :
  PyUnicode.codepoints (PyUnicode.utf8 [496; 97; 8364; 128512; 65]%N)
  = [496; 97; 8364; 128512; 65]%N.
Proof. vm_compute. reflexivity. Qed.

Example polygon_ties_keep_arrival_order :
  select "Close"
    (polygon_frame [ mkAgg 5 None None None (Some (Num 1)) None;
                     mkAgg 3 None None None (Some (Num 2)) None;
                     mkAgg 5 None None None (Some (Num 9)) None ])
  = [[Num 2; Num 1; Num 9]].
Proof. vm_compute. reflexivity. Qed.

Example polygon_without_close_key :
  (_polygon_aggs
     (demo_world (Ok yahoo_bars)
        (Ok (mkResponse 200 "" (Ok (Some [mkAgg 5 (Some (Num 1)) None None None None]))))
        (Some "k"))
     "aapl" "2024-01-01" "2024-01-10" "day" 1 "k").1
  = Err (KeyError (KeyStr "Close")).
Proof. vm_compute. reflexivity. Qed.

Example polygon_timestamp_out_of_bounds :
  (_polygon_aggs
     (demo_world (Ok yahoo_bars)
        (Ok (mkResponse 200 ""
               (Ok (Some [mkAgg 9223372036855 None None None (Some (Num 1)) None]))))
        (Some "k"))
     "aapl" "2024-01-01" "2024-01-10" "day" 1 "k").1
  = Err (LibraryError "OutOfBoundsDatetime" "cannot convert input with unit 'ms'").
Proof. vm_compute. reflexivity. Qed.

Example request_key_demo :
  request_key "aapl" "2024-01-01" "2024-01-10" "1d" "yahoo"
  = "end=2024-01-10|interval=1d|provider=yahoo|start=2024-01-01|ticker=AAPL".
Proof. vm_compute. reflexivity. Qed.


(** ** Characters and column names *)

Section Text.
Import PyStr.

Local Ltac by_cases_on_char :=
  intros [[] [] [] [] [] [] [] []]; vm_compute; first [reflexivity | discriminate].

Lemma recase_idem p c : recase p (recase p c) = recase p c.
Proof. destruct p; revert c; by_cases_on_char. Qed.

Lemma is_cased_recase p c : is_cased (recase p c) = is_cased c.
Proof. destruct p; revert c; by_cases_on_char. Qed.

Lemma is_space_recase p c : is_space (recase p c) = is_space c.
Proof. destruct p; revert c; by_cases_on_char. Qed.

Lemma space_not_cased c : is_space c = true → is_cased c = false.
Proof. revert c; by_cases_on_char. Qed.

Lemma is_lower_to_upper c : is_lower (to_upper c) = false.
Proof. revert c; by_cases_on_char. Qed.

Lemma title_from_unfold p c s :
  title_from p (String c s) = String (recase p c) (title_from (is_cased c) s).
Proof. reflexivity. Qed.

Lemma title_from_idem s : ∀ p, title_from p (title_from p s) = title_from p s.
Proof.
  induction s as [|c s IH]; intros p; [reflexivity|].
  rewrite !title_from_unfold, recase_idem, is_cased_recase, IH. reflexivity.
Qed.

Lemma is_empty_title_from p s : is_empty (title_from p s) = is_empty s.
Proof. destruct s; reflexivity. Qed.

Lemma lstrip_title s : lstrip (title s) = title (lstrip s).
Proof.
  unfold title. induction s as [|c s IH]; [reflexivity|].
  rewrite title_from_unfold. cbn [lstrip]. rewrite is_space_recase.
  destruct (is_space c) eqn:Hc.
  - rewrite (space_not_cased c Hc). exact IH.
  - rewrite title_from_unfold. reflexivity.
Qed.

Lemma rstrip_title_from s : ∀ p, rstrip (title_from p s) = title_from p (rstrip s).
Proof.
  induction s as [|c s IH]; intros p; [reflexivity|].
  rewrite title_from_unfold. cbn [rstrip].
  rewrite IH, is_empty_title_from, is_space_recase.
  destruct (is_space c && is_empty (rstrip s)); reflexivity.
Qed.

Lemma strip_title s : strip (title s) = title (strip s).
Proof. unfold strip. rewrite lstrip_title. apply rstrip_title_from. Qed.

Lemma lstrip_idem s : lstrip (lstrip s) = lstrip s.
Proof.
  induction s as [|c s IH]; [reflexivity|]. cbn [lstrip].
  destruct (is_space c) eqn:Hc; [exact IH|]. cbn [lstrip]. rewrite Hc. reflexivity.
Qed.

Lemma rstrip_idem s : rstrip (rstrip s) = rstrip s.
Proof.
  induction s as [|c s IH]; [reflexivity|]. cbn [rstrip].
  destruct (is_space c && is_empty (rstrip s)) eqn:Hc; [reflexivity|].
  cbn [rstrip]. rewrite IH, Hc. reflexivity.
Qed.

Lemma lstrip_rstrip s : lstrip (rstrip s) = rstrip (lstrip s).
Proof.
  induction s as [|c s IH]; [reflexivity|]. cbn [lstrip rstrip].
  destruct (is_space c) eqn:Hc; cbn [andb].
  - destruct (is_empty (rstrip s)) eqn:He.
    + rewrite <- IH. destruct (rstrip s); [reflexivity | discriminate].
    + cbn [lstrip]. rewrite Hc. exact IH.
  - cbn [lstrip rstrip]. rewrite Hc. reflexivity.
Qed.

Lemma strip_idem s : strip (strip s) = strip s.
Proof.
  unfold strip. rewrite lstrip_rstrip, lstrip_idem, rstrip_idem. reflexivity.
Qed.

(** The first renaming of [_normalize_df] is idempotent on names (the
    ASCII methods of [PyStr]). *)
Lemma canonical_name_idem c :
  title (strip (title (strip c))) = title (strip c).
Proof.
  rewrite strip_title, strip_idem. apply title_from_idem.
Qed.

(** A title-cased name never starts with a lower-case letter, while every
    key of the [rename] dict does: the second renaming changes nothing. *)

Lemma dict_get_or_self_title d s :
  Forall (λ kv, starts_lower kv.1) d →
  dict_get_or_self d (title s) = title s.
Proof.
  intros Hd. destruct s as [|c s]; unfold title.
  - induction Hd as [|[k v] d Hk _ IH]; [reflexivity|].
    cbn in *. destruct k; [contradiction | exact IH].
  - rewrite title_from_unfold. cbn [recase].
    induction Hd as [|[k v] d Hk _ IH]; [reflexivity|].
    cbn [dict_get_or_self]. destruct k as [|k0 k]; [contradiction|].
    cbn in Hk. cbn [String.eqb].
    replace (Ascii.eqb (to_upper c) k0) with false; [exact IH|].
    symmetry. apply Ascii.eqb_neq. intros <-.
    rewrite is_lower_to_upper in Hk. discriminate.
Qed.

Lemma rename_keys_lower : Forall (λ kv : string * string, starts_lower kv.1) rename.
Proof. unfold rename. repeat constructor. Qed.

Lemma rename_title s : dict_get_or_self rename (title s) = title s.
Proof. apply dict_get_or_self_title, rename_keys_lower. Qed.

End Text.

(** ** Masks and row selection *)

Section Keep.
Context {A : Type}.
Implicit Types (m : list bool) (l : list A).

Lemma keep_nil_r m : keep m (@nil A) = [].
Proof. destruct m; reflexivity. Qed.

Lemma Forall_keep (P : A → Prop) m l : Forall P l → Forall P (keep m l).
Proof.
  intros Hl. revert m. induction Hl as [|x l Hx _ IH]; intros [|[] m]; cbn; auto.
Qed.


(** A stricter mask keeps fewer rows. *)
Lemma Forall_keep_and (P : A → Prop) (bs : list bool) m l :
  Forall P (keep m l) → Forall P (keep (zip_with andb bs m) l).
Proof.
  revert bs l. induction m as [|b m IH]; intros [|b' bs] [|x l] H; cbn in *; auto.
  destruct b, b'; cbn; auto.
  - inversion H; subst. constructor; auto.
  - inversion H; subst. auto.
Qed.

(** The number of selected rows is [length (keep m m)]. *)
Lemma length_keep_le m l : (length (keep m l) ≤ length (keep m m))%nat.
Proof.
  revert l. induction m as [|b m IH]; intros [|x l]; cbn; try lia.
  destruct b; cbn; specialize (IH l); lia.
Qed.

Lemma length_keep_eq m l :
  (length m ≤ length l)%nat → length (keep m l) = length (keep m m).
Proof.
  revert l. induction m as [|b m IH]; intros [|x l] Hlen; cbn in *; try lia.
  destruct b; cbn; rewrite IH by lia; reflexivity.
Qed.

Lemma keep_all l n : (length l ≤ n)%nat → keep (replicate n true) l = l.
Proof.
  revert n. induction l as [|x l IH]; intros [|n] Hn; cbn in *; try lia; try reflexivity.
  rewrite IH by lia. reflexivity.
Qed.

End Keep.

Lemma keep_mask_notna (col : list Cell) m :
  Forall (λ c, notna c = true) (keep (zip_with andb (notna <$> col) m) col).
Proof.
  revert m. induction col as [|c col IH]; intros [|b m]; cbn; auto.
  destruct c, b; cbn; auto.
Qed.

Lemma length_row_mask_index idx cols : (length (row_mask idx cols) ≤ length idx)%nat.
Proof.
  unfold row_mask. induction cols as [|col cols IH]; cbn [foldr].
  - rewrite length_fmap. lia.
  - rewrite length_zip_with. lia.
Qed.

Lemma length_row_mask_col idx cols col :
  col ∈ cols → (length (row_mask idx cols) ≤ length col)%nat.
Proof.
  unfold row_mask.
  induction cols as [|c cols IH]; intros Hin; [by apply elem_of_nil in Hin|].
  cbn [foldr]. rewrite length_zip_with, length_fmap.
  apply elem_of_cons in Hin as [->|Hin]; [lia|]. specialize (IH Hin). lia.
Qed.

Lemma keep_row_mask_notna idx cols col :
  col ∈ cols → Forall (λ c, notna c = true) (keep (row_mask idx cols) col).
Proof.
  unfold row_mask.
  induction cols as [|c cols IH]; intros Hin; [by apply elem_of_nil in Hin|].
  cbn [foldr]. apply elem_of_cons in Hin as [->|Hin].
  - apply keep_mask_notna.
  - apply Forall_keep_and, IH, Hin.
Qed.

(** On a table without nulls in the tested columns, whose tested columns
    are as long as the index, the mask selects every row. *)
Lemma row_mask_all_true idx cols :
  Forall (λ col, length col = length idx ∧ Forall (λ c, notna c = true) col) cols →
  row_mask idx cols = replicate (length idx) true.
Proof.
  unfold row_mask. induction 1 as [|col cols [Hlen Hcol] _ IH]; cbn [foldr].
  - apply const_fmap. done.
  - rewrite IH. clear IH. revert idx Hlen.
    induction Hcol as [|c col Hc _ IH]; intros [|i idx] Hlen; cbn in *; try lia;
      try reflexivity.
    rewrite Hc. cbn. f_equal. apply IH. lia.
Qed.

(** ** Frames *)

Lemma select_cons name n col cols idx :
  select name (mkDF ((n, col) :: cols) idx)
  = if decide (n = name) then col :: select name (mkDF cols idx)
    else select name (mkDF cols idx).
Proof.
  unfold select. cbn [columns]. rewrite filter_cons. cbn [fst].
  destruct (decide (n = name)); reflexivity.
Qed.

Lemma select_index name cols idx idx' :
  select name (mkDF cols idx) = select name (mkDF cols idx').
Proof. reflexivity. Qed.

Lemma select_fmap name (f : list Cell → list Cell) cols idx idx' :
  select name (mkDF (prod_map id f <$> cols) idx) = f <$> select name (mkDF cols idx').
Proof.
  induction cols as [|[n col] cols IH]; [reflexivity|].
  rewrite fmap_cons. cbn [prod_map fst snd id]. rewrite !select_cons.
  destruct (decide (n = name)); rewrite IH; reflexivity.
Qed.

Lemma select_app name cols1 cols2 idx :
  select name (mkDF (cols1 ++ cols2) idx)
  = select name (mkDF cols1 idx) ++ select name (mkDF cols2 idx).
Proof.
  unfold select. cbn [columns]. rewrite filter_app, fmap_app. reflexivity.
Qed.

Lemma has_column_cons name n col cols idx :
  has_column name (mkDF ((n, col) :: cols) idx)
  = String.eqb name n || has_column name (mkDF cols idx).
Proof. reflexivity. Qed.

Lemma has_column_select name df :
  has_column name df = false ↔ select name df = [].
Proof.
  destruct df as [cols idx]. induction cols as [|[n col] cols IH]; [done|].
  rewrite has_column_cons, select_cons, orb_false_iff, IH.
  destruct (decide (n = name)) as [->|Hne].
  - rewrite String.eqb_refl. split; [intros [? _]|]; discriminate.
  - assert (String.eqb name n = false) as -> by (apply String.eqb_neq; congruence).
    tauto.
Qed.

Lemma has_column_fmap name (f : list Cell → list Cell) cols idx idx' :
  has_column name (mkDF (prod_map id f <$> cols) idx) = has_column name (mkDF cols idx').
Proof.
  induction cols as [|[n col] cols IH]; [reflexivity|].
  rewrite fmap_cons. cbn [prod_map fst snd id]. rewrite !has_column_cons, IH.
  reflexivity.
Qed.

Lemma has_column_app name cols1 cols2 idx :
  has_column name (mkDF (cols1 ++ cols2) idx)
  = has_column name (mkDF cols1 idx) || has_column name (mkDF cols2 idx).
Proof.
  unfold has_column, column_names, PyStr.in_tuple. cbn [columns].
  rewrite fmap_app. apply existsb_app.
Qed.

(** The second [rename] of [_normalize_df] never fires. *)
Lemma rename_after_title df :
  rename_columns (dict_get_or_self rename) (rename_columns canonical_name df)
  = rename_columns canonical_name df.
Proof.
  unfold rename_columns. cbn [columns index]. f_equal.
  rewrite <- list_fmap_compose. apply list_fmap_ext. intros i [n col] _.
  unfold compose, prod_map, canonical_name. cbn [fst snd].
  rewrite rename_title. reflexivity.
Qed.

Lemma rename_canonical_fixed cols idx :
  Forall (λ nc : string * list Cell, canonical_name nc.1 = nc.1) cols →
  rename_columns canonical_name (mkDF cols idx) = mkDF cols idx.
Proof.
  intros H. unfold rename_columns. cbn [columns index]. f_equal.
  induction H as [|[n col] cols Hn _ IH]; [reflexivity|].
  rewrite fmap_cons, IH. cbn in *. rewrite Hn. reflexivity.
Qed.

(** ** Timestamps *)

Lemma to_datetime_is_ts w l l' : to_datetime w l = Ok l' → is_ts l'.
Proof.
  destruct l as [s|t]; cbn.
  - destruct (to_datetime_str w s); cbn; [intros [= <-]; exact I | discriminate].
  - intros [= <-]. exact I.
Qed.

Lemma rmapM_to_datetime_is_ts w l idx :
  rmapM (to_datetime w) l = Ok idx → Forall is_ts idx.
Proof.
  revert idx. induction l as [|x l IH]; intros idx; cbn.
  - intros [= <-]. constructor.
  - destruct (to_datetime w x) as [x'|] eqn:Hx; cbn; [|discriminate].
    destruct (rmapM (to_datetime w) l) as [idx'|]; cbn; [|discriminate].
    intros [= <-]. constructor; eauto using to_datetime_is_ts.
Qed.

Lemma rmapM_to_datetime_fixed w idx :
  Forall is_ts idx → rmapM (to_datetime w) idx = Ok idx.
Proof.
  induction 1 as [|[s|t] idx Ht _ IH]; cbn; [reflexivity|contradiction|].
  rewrite IH. reflexivity.
Qed.

(** ** The normalizer *)

Lemma dropna_subset_inv name df out :
  dropna_subset name df = Ok out →
  select name df ≠ [] ∧
  out = mkDF (prod_map id (keep (row_mask (index df) (select name df))) <$> columns df)
             (keep (row_mask (index df) (select name df)) (index df)).
Proof.
  unfold dropna_subset. destruct (select name df) as [|c cs]; [discriminate|].
  intros [= <-]. split; [discriminate | reflexivity].
Qed.

Lemma dropna_subset_populated name df out :
  dropna_subset name df = Ok out → column_populated name out.
Proof.
  intros [Hne ->]%dropna_subset_inv. destruct df as [cols idx]. cbn [columns index] in *.
  unfold column_populated. rewrite (select_fmap _ _ _ _ idx). split.
  - destruct (select name (mkDF cols idx)); [done | discriminate].
  - apply Forall_fmap, Forall_forall. intros col Hcol. cbn.
    apply keep_row_mask_notna, Hcol.
Qed.

(** Dropping rows a second time drops nothing. *)
Lemma dropna_subset_idem name df out :
  dropna_subset name df = Ok out → dropna_subset name out = Ok out.
Proof.
  intros H. pose proof (dropna_subset_populated _ _ _ H) as [Hsel Hfull].
  apply dropna_subset_inv in H as [Hne ->]. destruct df as [cols idx].
  cbn [columns index] in *.
  set (m := row_mask idx (select name (mkDF cols idx))) in *.
  unfold dropna_subset. cbn [columns index].
  destruct (select name _) as [|c0 cs0] eqn:Hs in |- *; [done|]. rewrite <- Hs. clear c0 cs0 Hs.
  assert (row_mask (keep m idx) (select name (mkDF (prod_map id (keep m) <$> cols) (keep m idx)))
          = replicate (length (keep m m)) true) as ->.
  { assert (length (keep m idx) = length (keep m m)) as <-.
    { apply length_keep_eq, length_row_mask_index. }
    apply row_mask_all_true.
    rewrite (select_fmap _ _ _ _ idx) in Hfull |- *.
    apply Forall_fmap, Forall_forall. intros col Hcol. unfold compose. split.
    - rewrite (length_keep_eq m col) by (by apply length_row_mask_col).
      rewrite (length_keep_eq m idx) by apply length_row_mask_index. done.
    - rewrite Forall_fmap, Forall_forall in Hfull. by apply Hfull. }
  f_equal. f_equal.
  - rewrite <- list_fmap_compose. apply list_fmap_ext. intros i [n col] _.
    unfold compose, prod_map, id. cbn [fst snd]. f_equal.
    apply keep_all, length_keep_le.
  - apply keep_all. rewrite (length_keep_eq m idx); [done|apply length_row_mask_index].
Qed.

Lemma normalize_eq w df :
  _normalize_df w (Some df)
  = (let df1 := rename_columns canonical_name df in
     df3 ←ᵣ (if negb (has_column "Adj Close" df1) && has_column "Close" df1
             then setitem_new_from "Adj Close" "Close" df1
             else Ok df1);
     idx ←ᵣ rmapM (to_datetime w) (index df3);
     dropna_subset "Close" (mkDF (columns df3) idx)).
Proof.
  unfold _normalize_df, _normalize_df_with.
  change (λ c, PyStr.title (PyStr.strip c)) with canonical_name.
  rewrite rename_after_title. reflexivity.
Qed.

(** What a successful normalization did: the columns after the
    [Adj Close] step, the parsed index, and the final row selection. *)
Lemma normalize_inv w df out :
  _normalize_df w (Some df) = Ok out →
  ∃ cols idx,
    (has_column "Adj Close" (rename_columns canonical_name df) = true
       ∧ cols = columns (rename_columns canonical_name df)
     ∨ has_column "Adj Close" (rename_columns canonical_name df) = false
       ∧ ∃ col, select "Close" (rename_columns canonical_name df) = [col]
                ∧ cols = columns (rename_columns canonical_name df) ++ [("Adj Close", col)])
    ∧ rmapM (to_datetime w) (index df) = Ok idx
    ∧ dropna_subset "Close" (mkDF cols idx) = Ok out.
Proof.
  rewrite normalize_eq. cbn zeta.
  set (df1 := rename_columns canonical_name df).
  destruct (has_column "Adj Close" df1) eqn:Hadj; cbn [negb andb].
  - cbn [rbind]. destruct (rmapM (to_datetime w) (index df1)) as [idx|] eqn:Hidx;
      cbn [rbind]; [|discriminate].
    intros H. exists (columns df1), idx. auto.
  - destruct (has_column "Close" df1) eqn:Hclose.
    + unfold setitem_new_from.
      destruct (select "Close" df1) as [|col [|col' cs]] eqn:Hsel; cbn [rbind];
        try discriminate.
      cbn [index columns].
      destruct (rmapM (to_datetime w) (index df1)) as [idx|] eqn:Hidx;
        cbn [rbind]; [|discriminate].
      intros H. exists (columns df1 ++ [("Adj Close", col)]), idx.
      split; [right; eauto|]. auto.
    + cbn [rbind].
      destruct (rmapM (to_datetime w) (index df1)) as [idx|]; cbn [rbind]; [|discriminate].
      intros [Hne _]%dropna_subset_inv. apply has_column_select in Hclose.
      rewrite (select_index _ _ _ (index df1)) in Hne. destruct df1. contradiction.
Qed.

Lemma canonical_columns_renamed df :
  Forall (λ nc : string * list Cell, canonical_name nc.1 = nc.1)
         (columns (rename_columns canonical_name df)).
Proof.
  unfold rename_columns. cbn [columns]. apply Forall_fmap, Forall_forall.
  intros [n col] _. unfold compose, prod_map. cbn [fst].
  apply canonical_name_idem.
Qed.

Lemma normalize_names w df out :
  _normalize_df w (Some df) = Ok out →
  Forall (λ nc : string * list Cell, canonical_name nc.1 = nc.1) (columns out).
Proof.
  intros (cols & idx & Hcols & _ & [_ ->]%dropna_subset_inv)%normalize_inv.
  cbn [columns index]. apply Forall_fmap.
  assert (Forall (λ nc : string * list Cell, canonical_name nc.1 = nc.1) cols) as H.
  { destruct Hcols as [[_ ->]|[_ (col & _ & ->)]].
    - apply canonical_columns_renamed.
    - apply Forall_app. split; [apply canonical_columns_renamed|].
      constructor; [reflexivity | constructor]. }
  eapply Forall_impl; [exact H|]. intros [n col]. done.
Qed.

Lemma normalize_has_adj_close w df out :
  _normalize_df w (Some df) = Ok out → has_column "Adj Close" out = true.
Proof.
  intros (cols & idx & Hcols & _ & [_ ->]%dropna_subset_inv)%normalize_inv.
  cbn [columns index]. rewrite (has_column_fmap _ _ _ _ idx).
  destruct Hcols as [[H ->]|[_ (col & _ & ->)]].
  - destruct (rename_columns canonical_name df). exact H.
  - rewrite has_column_app. apply orb_true_r.
Qed.

Lemma normalize_close_populated w df out :
  _normalize_df w (Some df) = Ok out → column_populated "Close" out.
Proof.
  intros (cols & idx & _ & _ & H)%normalize_inv.
  eapply dropna_subset_populated, H.
Qed.

Lemma normalize_index w df out :
  _normalize_df w (Some df) = Ok out →
  ∃ idx mask, rmapM (to_datetime w) (index df) = Ok idx ∧ index out = keep mask idx.
Proof.
  intros (cols & idx & _ & Hidx & [_ ->]%dropna_subset_inv)%normalize_inv.
  cbn [columns index]. eauto.
Qed.

Lemma normalize_index_ts w df out :
  _normalize_df w (Some df) = Ok out → Forall is_ts (index out).
Proof.
  intros (idx & mask & Hidx & ->)%normalize_index.
  apply Forall_keep. eapply rmapM_to_datetime_is_ts, Hidx.
Qed.



(** Normalizing the normalizer's output returns it unchanged.  This is a
    fact about [_normalize_df], the normalizer on ASCII column names,
    where [strip().title()] is idempotent; what happens to other names is
    settled under "Column names beyond ASCII". *)
Lemma normalize_fixed_point w df out :
  _normalize_df w (Some df) = Ok out → _normalize_df w (Some out) = Ok out.
Proof.
  intros H. rewrite normalize_eq. cbn zeta.
  pose proof (normalize_names _ _ _ H) as Hnames.
  pose proof (normalize_has_adj_close _ _ _ H) as Hadj.
  pose proof (normalize_index_ts _ _ _ H) as Hts.
  apply normalize_inv in H as (cols & idx & _ & _ & Hdrop).
  apply dropna_subset_idem in Hdrop.
  destruct out as [ocols oidx]. cbn [columns index] in *.
  rewrite rename_canonical_fixed by exact Hnames.
  rewrite Hadj. cbn [negb andb rbind index columns].
  rewrite rmapM_to_datetime_fixed by exact Hts. cbn [rbind].
  exact Hdrop.
Qed.

Lemma column_names_fmap (f : list Cell → list Cell) cols idx :
  column_names (mkDF (prod_map id f <$> cols) idx) = cols.*1.
Proof.
  unfold column_names. cbn [columns]. rewrite <- list_fmap_compose.
  apply list_fmap_ext. intros i [n col] _. reflexivity.
Qed.

Lemma column_names_rename (f : string → string) df :
  column_names (rename_columns f df) = f <$> column_names df.
Proof.
  unfold column_names, rename_columns. cbn [columns]. rewrite <- !list_fmap_compose.
  apply list_fmap_ext. intros i [n col] _. reflexivity.
Qed.

(** ** Column names beyond ASCII *)

Section CodePoints.
Import PyUnicode.

Lemma codepoints_cons_ascii b s :
  (PyStr.code b <? 128)%N = true →
  codepoints (String b s) = PyStr.code b :: codepoints s.
Proof.
  intros Hb%N.ltb_lt.
  assert ((192 <=? PyStr.code b)%N = false) as H2 by (apply N.leb_gt; lia).
  assert ((224 <=? PyStr.code b)%N = false) as H3 by (apply N.leb_gt; lia).
  assert ((240 <=? PyStr.code b)%N = false) as H4 by (apply N.leb_gt; lia).
  destruct s as [|b1 [|b2 [|b3 s4]]]; cbn [codepoints]; rewrite ?H2, ?H3, ?H4;
    reflexivity.
Qed.

Lemma codepoints_ascii s : PyStr.is_ascii s = true → codepoints s = codes s.
Proof.
  induction s as [|b s IH]; [reflexivity|]. cbn [PyStr.is_ascii codes].
  intros [Hb Hs]%andb_true_iff. rewrite codepoints_cons_ascii by exact Hb.
  rewrite IH by exact Hs. reflexivity.
Qed.

Lemma utf8_codes s : PyStr.is_ascii s = true → utf8 (codes s) = s.
Proof.
  induction s as [|b s IH]; [reflexivity|]. cbn [PyStr.is_ascii codes utf8 foldr].
  intros [Hb Hs]%andb_true_iff. fold (utf8 (codes s)). rewrite IH by exact Hs.
  unfold utf8_char, byte. rewrite Hb. unfold PyStr.code. rewrite ascii_N_embedding.
  reflexivity.
Qed.

Local Ltac by_cases_on_byte :=
  intros [[] [] [] [] [] [] [] []]; vm_compute; intros;
  first [reflexivity | discriminate].

Lemma is_space_code b :
  (PyStr.code b <? 128)%N = true → is_space (PyStr.code b) = PyStr.is_space b.
Proof. revert b. by_cases_on_byte. Qed.

Lemma recase_ascii p b :
  (PyStr.code b <? 128)%N = true → (PyStr.code (PyStr.recase p b) <? 128)%N = true.
Proof. destruct p; revert b; by_cases_on_byte. Qed.

Lemma lstrip_codes s :
  PyStr.is_ascii s = true → lstrip (codes s) = codes (PyStr.lstrip s).
Proof.
  induction s as [|b s IH]; [reflexivity|]. cbn [PyStr.is_ascii codes lstrip PyStr.lstrip].
  intros [Hb Hs]%andb_true_iff. rewrite is_space_code by exact Hb.
  destruct (PyStr.is_space b); [by apply IH|reflexivity].
Qed.

Lemma codes_nil s : bool_decide (codes s = []) = PyStr.is_empty s.
Proof. destruct s; reflexivity. Qed.

Lemma rstrip_codes s :
  PyStr.is_ascii s = true → rstrip (codes s) = codes (PyStr.rstrip s).
Proof.
  induction s as [|b s IH]; [reflexivity|]. cbn [PyStr.is_ascii codes rstrip PyStr.rstrip].
  intros [Hb Hs]%andb_true_iff. rewrite is_space_code by exact Hb.
  rewrite IH by exact Hs. rewrite codes_nil.
  destruct (PyStr.is_space b && PyStr.is_empty (PyStr.rstrip s)); reflexivity.
Qed.

Lemma is_ascii_lstrip s : PyStr.is_ascii s = true → PyStr.is_ascii (PyStr.lstrip s) = true.
Proof.
  induction s as [|b s IH]; [reflexivity|]. cbn [PyStr.is_ascii PyStr.lstrip].
  intros [Hb Hs]%andb_true_iff. destruct (PyStr.is_space b); [by apply IH|].
  cbn [PyStr.is_ascii]. by rewrite Hb, Hs.
Qed.

Lemma is_ascii_rstrip s : PyStr.is_ascii s = true → PyStr.is_ascii (PyStr.rstrip s) = true.
Proof.
  induction s as [|b s IH]; [reflexivity|]. cbn [PyStr.is_ascii PyStr.rstrip].
  intros [Hb Hs]%andb_true_iff.
  destruct (PyStr.is_space b && PyStr.is_empty (PyStr.rstrip s)); [reflexivity|].
  cbn [PyStr.is_ascii]. by rewrite Hb, IH.
Qed.

Lemma is_ascii_title_from s : ∀ p,
  PyStr.is_ascii s = true → PyStr.is_ascii (PyStr.title_from p s) = true.
Proof.
  induction s as [|b s IH]; intros p; [reflexivity|].
  cbn [PyStr.is_ascii PyStr.title_from]. intros [Hb Hs]%andb_true_iff.
  rewrite recase_ascii by exact Hb. by rewrite IH.
Qed.

Lemma title_from_codes T s : ∀ p,
  ascii_rows T → PyStr.is_ascii s = true →
  title_from T p (codes s) = codes (PyStr.title_from p s).
Proof.
  induction s as [|b s IH]; intros p HT; [reflexivity|].
  cbn [PyStr.is_ascii codes title_from PyStr.title_from]. intros [Hb Hs]%andb_true_iff.
  destruct (HT b) as (Htitle & Hlower & Hcased); [by apply N.ltb_lt|].
  rewrite Hcased, IH by done. destruct p; cbn [PyStr.recase]; rewrite ?Htitle, ?Hlower;
    reflexivity.
Qed.

Lemma is_ascii_canonical_name c :
  PyStr.is_ascii c = true → PyStr.is_ascii (canonical_name c) = true.
Proof.
  intros Hc. unfold canonical_name, PyStr.title, PyStr.strip.
  by apply is_ascii_title_from, is_ascii_rstrip, is_ascii_lstrip.
Qed.

(** On ASCII text, [strip] and [title] on code points, over any table
    with Unicode's ASCII rows, are the ASCII methods of [PyStr]. *)
Lemma strip_title_ascii T c :
  ascii_rows T → PyStr.is_ascii c = true → strip_title T c = canonical_name c.
Proof.
  intros HT Hc. unfold strip_title, title, strip, canonical_name, PyStr.title, PyStr.strip.
  rewrite codepoints_ascii by exact Hc.
  rewrite lstrip_codes by exact Hc.
  rewrite rstrip_codes by (by apply is_ascii_lstrip).
  rewrite title_from_codes by (done || by apply is_ascii_rstrip, is_ascii_lstrip).
  apply utf8_codes. by apply is_ascii_title_from, is_ascii_rstrip, is_ascii_lstrip.
Qed.

Lemma sample_rows_ascii : ascii_rows sample_rows.
Proof.
  intros b Hb. apply N.ltb_lt in Hb. unfold sample_rows. cbn [to_title to_lower is_cased].
  rewrite Hb. unfold byte, PyStr.code. rewrite ascii_N_embedding. done.
Qed.

End CodePoints.

Lemma rename_columns_ext (f g : string → string) df :
  Forall (λ n, f n = g n) (column_names df) → rename_columns f df = rename_columns g df.
Proof.
  intros H. unfold rename_columns. f_equal. unfold column_names in H.
  induction (columns df) as [|[n col] cols IH]; [reflexivity|].
  rewrite fmap_cons in H. apply Forall_cons in H as [Hn H]. rewrite !fmap_cons, IH by exact H.
  unfold prod_map. cbn [fst snd] in *. rewrite Hn. reflexivity.
Qed.

Lemma forallb_is_ascii_Forall (names : list string) :
  forallb PyStr.is_ascii names = true ↔ Forall (λ n, PyStr.is_ascii n = true) names.
Proof. rewrite forallb_forall, Forall_forall. setoid_rewrite list_elem_of_In. tauto. Qed.

(** With ASCII column names the normalizer over code points is the
    normalizer over ASCII text. *)
Lemma normalize_with_ascii T w df :
  PyUnicode.ascii_rows T →
  forallb PyStr.is_ascii (column_names df) = true →
  _normalize_df_with (PyUnicode.strip_title T) w (Some df) = _normalize_df w (Some df).
Proof.
  intros HT Hnames%forallb_is_ascii_Forall. unfold _normalize_df, _normalize_df_with.
  rewrite (rename_columns_ext (PyUnicode.strip_title T) (λ c, PyStr.title (PyStr.strip c)));
    [reflexivity|].
  eapply Forall_impl; [exact Hnames|]. intros n Hn. by apply strip_title_ascii.
Qed.

Lemma normalize_column_names w df out :
  _normalize_df w (Some df) = Ok out →
  column_names out
  = (canonical_name <$> column_names df)
    ++ (if has_column "Adj Close" (rename_columns canonical_name df)
        then [] else ["Adj Close"]).
Proof.
  intros (cols & idx & Hcols & _ & [_ ->]%dropna_subset_inv)%normalize_inv.
  cbn [columns index]. rewrite column_names_fmap.
  destruct Hcols as [[-> ->]|[-> (col & _ & ->)]].
  - rewrite app_nil_r. apply column_names_rename.
  - rewrite fmap_app. f_equal. apply column_names_rename.
Qed.

Lemma normalize_names_ascii w df out :
  _normalize_df w (Some df) = Ok out →
  forallb PyStr.is_ascii (column_names df) = true →
  forallb PyStr.is_ascii (column_names out) = true.
Proof.
  intros Hn Hnames%forallb_is_ascii_Forall. apply forallb_is_ascii_Forall.
  rewrite (normalize_column_names _ _ _ Hn). apply Forall_app. split.
  - apply Forall_fmap. eapply Forall_impl; [exact Hnames|].
    intros n Hasc. by apply is_ascii_canonical_name.
  - destruct (has_column _ _); repeat constructor.
Qed.

(** C7 (as amended). On tables whose column names are ASCII text,
    normalization is idempotent: the table that comes out of the
    normalizer is returned unchanged (same columns, rows, dates and
    values) when it is normalized again.  This holds for Python's
    [strip().title()], whatever the case table says beyond ASCII. *)
Theorem normalize_idempotent_on_ascii_names T w (df out : DataFrame) :
  PyUnicode.ascii_rows T →
  forallb PyStr.is_ascii (column_names df) = true →
  _normalize_df_with (PyUnicode.strip_title T) w (Some df) = Ok out →
  _normalize_df_with (PyUnicode.strip_title T) w (Some out) = Ok out.
Proof.
  intros HT Hnames. rewrite normalize_with_ascii by done. intros Hn.
  rewrite normalize_with_ascii; [|done|by eapply normalize_names_ascii].
  by eapply normalize_fixed_point.
Qed.

Lemma normalize_idempotent_on_ascii_names_witness :
  _normalize_df_with py_strip_title world_no_key
    (Some (mkDF [("Close", [Num 7]); ("Adjclose", [Num 9]); ("Adj Close", [Num 7])] [LTs 2]))
  = Ok (mkDF [("Close", [Num 7]); ("Adjclose", [Num 9]); ("Adj Close", [Num 7])] [LTs 2]).
Proof.
  apply (normalize_idempotent_on_ascii_names PyUnicode.sample_rows world_no_key
           (mkDF [(" close ", [NaN; Num 7]); ("adjclose", [Num 8; Num 9])] [LTs 1; LTs 2])).
  - exact sample_rows_ascii.
  - reflexivity.
  - vm_compute. reflexivity.
Defined.

(** C7, as stated, fails: a column named U+01F0 "a" is renamed to
    U+004A U+030C "a" by the first normalization and to U+004A U+030C "A"
    by the second, so the normalizer changes its own output. *)
Lemma normalize_not_idempotent_beyond_ascii :
  _normalize_df_with py_strip_title world_no_key (Some caron_frame)
  = Ok (mkDF [(PyUnicode.utf8 [74; 780; 97]%N, [Num 1]); ("Close", [Num 2]);
              ("Adj Close", [Num 2])] [LTs 1])
  ∧ _normalize_df_with py_strip_title world_no_key
      (Some (mkDF [(PyUnicode.utf8 [74; 780; 97]%N, [Num 1]); ("Close", [Num 2]);
                   ("Adj Close", [Num 2])] [LTs 1]))
    = Ok (mkDF [(PyUnicode.utf8 [74; 780; 65]%N, [Num 1]); ("Close", [Num 2]);
                ("Adj Close", [Num 2])] [LTs 1])
  ∧ _normalize_df_with py_strip_title world_no_key
      (Some (mkDF [(PyUnicode.utf8 [74; 780; 97]%N, [Num 1]); ("Close", [Num 2]);
                   ("Adj Close", [Num 2])] [LTs 1]))
    ≠ Ok (mkDF [(PyUnicode.utf8 [74; 780; 97]%N, [Num 1]); ("Close", [Num 2]);
                ("Adj Close", [Num 2])] [LTs 1]).
Proof. split_and!; [vm_compute; reflexivity..|vm_compute; discriminate]. Qed.

(** ** The cache key *)








(** ** The adapters *)

Lemma polygon_aggs_events w ticker start end_ timespan multiplier api_key :
  ∃ url params,
    (_polygon_aggs w ticker start end_ timespan multiplier api_key).2 = [HttpGet url params].
Proof. unfold _polygon_aggs. repeat case_match; cbn; eauto. Qed.

Lemma fetch_polygon_events w ticker start end_ interval api_key :
  Forall (λ ev, is_yahoo_call ev = false)
         (_fetch_polygon w ticker start end_ interval api_key).2.
Proof.
  unfold _fetch_polygon. repeat case_match; cbn; try constructor;
    match goal with
    | |- Forall _ (_polygon_aggs ?w ?t ?s ?e ?ts ?m ?k).2 =>
        destruct (polygon_aggs_events w t s e ts m k) as (url & params & ->)
    end; repeat constructor.
Qed.

Lemma polygon_aggs_ok w ticker start end_ timespan multiplier api_key df evs :
  _polygon_aggs w ticker start end_ timespan multiplier api_key = (Ok df, evs) →
  ∃ results, results ≠ [] ∧ df = polygon_frame results.
Proof.
  unfold _polygon_aggs. repeat case_match; intros [= <- <-]; try discriminate.
  eexists; split; [|reflexivity]. discriminate.
Qed.

Lemma fetch_polygon_ok w ticker start end_ interval api_key df evs :
  _fetch_polygon w ticker start end_ interval api_key = (Ok df, evs) →
  ∃ results, results ≠ [] ∧ df = polygon_frame results.
Proof.
  unfold _fetch_polygon. repeat case_match; try discriminate;
    apply polygon_aggs_ok.
Qed.

Lemma fetch_yahoo_events w ticker start end_ interval :
  (_fetch_yahoo w ticker start end_ interval).2 = [YfDownload ticker start end_ interval].
Proof. unfold _fetch_yahoo. repeat case_match; reflexivity. Qed.

Lemma fetch_yahoo_ok w ticker start end_ interval y evs :
  _fetch_yahoo w ticker start end_ interval = (Ok y, evs) →
  ∃ raw, yf_download w ticker start end_ interval = Ok raw
         ∧ df_empty raw = false
         ∧ _normalize_df w (Some raw) = Ok y
         ∧ evs = [YfDownload ticker start end_ interval].
Proof.
  unfold _fetch_yahoo. destruct (yf_download w ticker start end_ interval) as [raw|];
    [|discriminate].
  destruct (df_empty raw) eqn:Hempty; [discriminate|].
  intros [= H <-]. eauto.
Qed.

(** ** The orchestrator, stage by stage *)

Lemma fetch_ohlcv_miss w ticker start end_ interval provider s :
  cache_fresh w s (fetch_key w ticker start end_ interval provider) = false →
  fetch_ohlcv w ticker start end_ interval provider s
  = fetch_fresh w ticker (effective_start w start) (effective_end w end_) interval
                (resolve_provider provider)
                (fetch_key w ticker start end_ interval provider)
                (after_cache_test w (fetch_key w ticker start end_ interval provider) s).
Proof.
  unfold fetch_ohlcv, cache_fresh, after_cache_test, fetch_key,
    effective_start, effective_end. cbn zeta.
  destruct (_CACHE s !! _) as [e|]; [|reflexivity].
  cbn [_now fst snd]. intros ->. reflexivity.
Qed.

Lemma fetch_ohlcv_hit w ticker start end_ interval provider s e :
  _CACHE s !! fetch_key w ticker start end_ interval provider = Some e →
  time_time w (clock_reads s) - entry_ts e < _TTL_SEC →
  fetch_ohlcv w ticker start end_ interval provider s
  = (Ok (fresh (dom (heap s))),
     mkState (<[fresh (dom (heap s)) := default (mkDF [] []) (heap s !! entry_df e)]> (heap s))
             (_CACHE s) (trace s) (S (clock_reads s))).
Proof.
  unfold fetch_ohlcv, fetch_key, effective_start, effective_end. cbn zeta.
  intros -> Hlt. cbn [_now]. apply Z.ltb_lt in Hlt. rewrite Hlt. reflexivity.
Qed.

Lemma after_cache_test_frame w key s :
  heap (after_cache_test w key s) = heap s
  ∧ _CACHE (after_cache_test w key s) = _CACHE s
  ∧ trace (after_cache_test w key s) = trace s.
Proof. unfold after_cache_test. destruct (_CACHE s !! key); done. Qed.

Lemma store_stage_ok w key df out s :
  _normalize_df w df = Ok out →
  ∃ l l', (l ∉ dom (heap s)) ∧ (l' ∉ dom (heap s)) ∧ l ≠ l' ∧
    store_stage w key df s
    = (Ok l, mkState (<[l' := out]> (<[l := out]> (heap s)))
                     (<[key := mkEntry (time_time w (clock_reads s)) l']> (_CACHE s))
                     (trace s) (S (clock_reads s))).
Proof.
  intros Hn. unfold store_stage. rewrite Hn.
  unfold alloc, copy, alloc, _now, cache_store. cbn [heap _CACHE trace clock_reads].
  set (l := fresh (dom (heap s))).
  rewrite lookup_insert_eq. cbn [default].
  set (l' := fresh (dom (<[l:=out]> (heap s)))).
  assert (l ∉ dom (heap s)) as Hl by apply is_fresh.
  assert (l' ∉ dom (<[l:=out]> (heap s))) as Hl' by apply is_fresh.
  rewrite dom_insert_L in Hl'.
  exists l, l'. split_and!; [done|set_solver|set_solver|reflexivity].
Qed.

Lemma store_stage_err w key df e s :
  _normalize_df w df = Err e → store_stage w key df s = (Err e, s).
Proof. intros Hn. unfold store_stage. rewrite Hn. reflexivity. Qed.

Lemma polygon_stage_err w ticker start end_ interval provider s e evp :
  PyStr.in_tuple provider ["polygon"; "auto"] = true →
  _fetch_polygon w ticker (Some start) (Some end_) interval
                 (Some (default "" (env_POLYGON_API_KEY w))) = (Err e, evp) →
  polygon_stage w ticker start end_ interval provider s
  = if String.eqb provider "polygon" then (Err e, emit evp s)
    else (Ok None, emit [fallback_warning e] (emit evp s)).
Proof. intros Hin Hp. unfold polygon_stage. rewrite Hin, Hp. reflexivity. Qed.

Lemma polygon_stage_skipped w ticker start end_ interval provider s :
  PyStr.in_tuple provider ["polygon"; "auto"] = false →
  polygon_stage w ticker start end_ interval provider s = (Ok None, s).
Proof. intros Hin. unfold polygon_stage. rewrite Hin. reflexivity. Qed.

(** C9. Called with an absent credential ([None] or the empty string),
    the Polygon adapter fails at once with the "POLYGON_API_KEY not set."
    error and has issued no network request. *)
Theorem polygon_requires_credential w ticker start end_ interval (api_key : option string) :
  key_missing api_key = true →
  _fetch_polygon w ticker start end_ interval api_key
  = (Err (ValueError "POLYGON_API_KEY not set."), []).
Proof. intros H. unfold _fetch_polygon. rewrite H. reflexivity. Qed.

Lemma polygon_requires_credential_witness :
  _fetch_polygon world_no_key "AAPL" None None "1d" None
    = (Err (ValueError "POLYGON_API_KEY not set."), [])
  ∧ _fetch_polygon world_no_key "AAPL" (Some "2024-01-01") None "1m" (Some "")
    = (Err (ValueError "POLYGON_API_KEY not set."), []).
Proof.
  split.
  - apply (polygon_requires_credential world_no_key "AAPL" None None "1d" None).
    reflexivity.
  - apply (polygon_requires_credential world_no_key "AAPL" (Some "2024-01-01") None "1m"
             (Some "")).
    reflexivity.
Defined.

(** C4. With provider "polygon" and no fresh cache entry, a failure of
    the Polygon adapter is the result of [fetch_ohlcv], unchanged; the
    only effects are the adapter's own, none of which is a Yahoo call, and
    the cache is left as it was. *)
Theorem forced_polygon_propagates w ticker start end_ interval provider s e evp :
  resolve_provider provider = "polygon" →
  cache_fresh w s (fetch_key w ticker start end_ interval provider) = false →
  polygon_call w ticker start end_ interval = (Err e, evp) →
  ∃ s', fetch_ohlcv w ticker start end_ interval provider s = (Err e, s')
        ∧ trace s' = trace s ++ evp
        ∧ Forall (λ ev, is_yahoo_call ev = false) evp
        ∧ _CACHE s' = _CACHE s
        ∧ heap s' = heap s.
Proof.
  intros Hprov Hmiss Hcall. rewrite fetch_ohlcv_miss by exact Hmiss.
  destruct (after_cache_test_frame w (fetch_key w ticker start end_ interval provider) s)
    as (Hh & Hc & Ht).
  unfold fetch_fresh. rewrite Hprov.
  erewrite polygon_stage_err; [|reflexivity|exact Hcall]. cbn [String.eqb Ascii.eqb].
  eexists. split; [reflexivity|]. cbn [emit trace _CACHE heap].
  rewrite Ht, Hc, Hh. split_and!; try reflexivity.
  pose proof (fetch_polygon_events w ticker (Some (effective_start w start))
                (Some (effective_end w end_)) interval
                (Some (default "" (env_POLYGON_API_KEY w)))) as Hev.
  unfold polygon_call in Hcall. rewrite Hcall in Hev. exact Hev.
Qed.

Lemma forced_polygon_propagates_witness :
  ∃ s', fetch_ohlcv world_polygon_down "AAPL" None None "1d" (Some "Polygon") initial_state
        = (Err connect_timeout, s')
        ∧ trace s' = trace initial_state ++ [demo_polygon_request]
        ∧ Forall (λ ev, is_yahoo_call ev = false) [demo_polygon_request]
        ∧ _CACHE s' = _CACHE initial_state
        ∧ heap s' = heap initial_state.
Proof.
  apply (forced_polygon_propagates world_polygon_down "AAPL" None None "1d" (Some "Polygon")
           initial_state);
    vm_compute; reflexivity.
Defined.




(** C10. A provider string that resolves to none of "auto", "polygon",
    "yahoo" makes [fetch_ohlcv] raise (given no fresh cache entry): no
    adapter is called, nothing is printed, and the cache is not written. *)
Theorem unknown_provider_raises w ticker start end_ interval provider s :
  PyStr.in_tuple (resolve_provider provider) ["auto"; "polygon"; "yahoo"] = false →
  cache_fresh w s (fetch_key w ticker start end_ interval provider) = false →
  ∃ s', fetch_ohlcv w ticker start end_ interval provider s
        = (Err (AttributeError "'NoneType' object has no attribute 'rename'"), s')
        ∧ trace s' = trace s
        ∧ _CACHE s' = _CACHE s
        ∧ heap s' = heap s.
Proof.
  intros Hprov Hmiss. rewrite fetch_ohlcv_miss by exact Hmiss.
  destruct (after_cache_test_frame w (fetch_key w ticker start end_ interval provider) s)
    as (Hh & Hc & Ht).
  unfold PyStr.in_tuple in Hprov. cbn [existsb] in Hprov.
  apply orb_false_iff in Hprov as [Hauto Hprov].
  apply orb_false_iff in Hprov as [Hpoly Hprov].
  apply orb_false_iff in Hprov as [Hyahoo _].
  unfold fetch_fresh. rewrite polygon_stage_skipped.
  2:{ unfold PyStr.in_tuple. cbn [existsb]. rewrite Hpoly, Hauto. reflexivity. }
  unfold yahoo_stage, PyStr.in_tuple. cbn [existsb]. rewrite Hyahoo, Hauto. cbn [orb].
  eexists. split; [reflexivity|]. done.
Qed.

Lemma unknown_provider_raises_witness :
  ∃ s', fetch_ohlcv world_polygon_down "AAPL" None None "1d" (Some " Google ") initial_state
        = (Err (AttributeError "'NoneType' object has no attribute 'rename'"), s')
        ∧ trace s' = trace initial_state
        ∧ _CACHE s' = _CACHE initial_state
        ∧ heap s' = heap initial_state.
Proof.
  apply (unknown_provider_raises world_polygon_down "AAPL" None None "1d" (Some " Google ")
           initial_state);
    vm_compute; reflexivity.
Defined.

Lemma emit_nil s : emit [] s = s.
Proof. destruct s. unfold emit. cbn. rewrite app_nil_r. reflexivity. Qed.

Lemma emit_emit evs1 evs2 s : emit evs2 (emit evs1 s) = emit (evs1 ++ evs2) s.
Proof. unfold emit. cbn. rewrite app_assoc. reflexivity. Qed.

(** The shape of every run of the miss path: the adapters only add
    events; then either an adapter error ends the call, or [store_stage]
    runs on the table of the provider that won (or on [None]). *)
Lemma fetch_fresh_inv w ticker start end_ interval provider key s r s' :
  fetch_fresh w ticker start end_ interval provider key s = (r, s') →
  ∃ evs,
    ((PyStr.in_tuple provider ["polygon"; "auto"] = true →
        ∃ rest, evs = (_fetch_polygon w ticker (Some start) (Some end_) interval
                         (Some (default "" (env_POLYGON_API_KEY w)))).2 ++ rest)
     ∧ (provider = "yahoo" → evs = (_fetch_yahoo w ticker start end_ interval).2))
    ∧ ((∃ e, r = Err e ∧ s' = emit evs s)
       ∨ (∃ df,
             (df = None
              ∨ ∃ raw, df = Some raw
                  ∧ ((∃ evp, _fetch_polygon w ticker (Some start) (Some end_) interval
                               (Some (default "" (env_POLYGON_API_KEY w))) = (Ok raw, evp))
                     ∨ (∃ evy, _fetch_yahoo w ticker start end_ interval = (Ok raw, evy))))
             ∧ store_stage w key df (emit evs s) = (r, s'))).
Proof.
  unfold fetch_fresh, polygon_stage.
  destruct (PyStr.in_tuple provider ["polygon"; "auto"]) eqn:Hpa.
  - destruct (_fetch_polygon _ _ _ _ _ _) as [[raw|e] evp] eqn:Hp; cbn [snd].
    + cbn [yahoo_stage]. intros H. exists evp. split.
      * split; [intros _; exists []; by rewrite app_nil_r|].
        intros ->. discriminate.
      * right. exists (Some raw). split; [right|exact H]. eauto.
    + destruct (String.eqb provider "polygon") eqn:Hpoly.
      * intros [= <- <-]. exists evp. split.
        -- split; [intros _; exists []; by rewrite app_nil_r|]. intros ->. discriminate.
        -- left. eauto.
      * unfold yahoo_stage. rewrite emit_emit.
        destruct (PyStr.in_tuple provider ["yahoo"; "auto"]) eqn:Hya.
        -- destruct (_fetch_yahoo w ticker start end_ interval) as [[y|ey] evy] eqn:Hy;
             cbn [rbind]; rewrite emit_emit; intros H;
             exists ((evp ++ [fallback_warning e]) ++ evy);
             (split; [split; [intros _; eexists; by rewrite <- app_assoc
                             |intros ->; discriminate]|]).
           ++ right. exists (Some y). split; [right|exact H]. eauto.
           ++ left. injection H as <- <-. eauto.
        -- intros H. exists (evp ++ [fallback_warning e]). split.
           ++ split; [intros _; eauto|intros ->; discriminate].
           ++ right. exists None. split; [by left|exact H].
  - unfold yahoo_stage. destruct (PyStr.in_tuple provider ["yahoo"; "auto"]) eqn:Hya.
    + destruct (_fetch_yahoo w ticker start end_ interval) as [[y|ey] evy] eqn:Hy;
        cbn [rbind snd]; intros H; exists evy; (split; [split; [discriminate|done]|]).
      * right. exists (Some y). split; [right|exact H]. eauto.
      * left. injection H as <- <-. eauto.
    + intros H. exists []. split.
      * split; [discriminate|intros ->; discriminate].
      * right. exists None. split; [by left|]. rewrite emit_nil. exact H.
Qed.

Lemma store_stage_inv w key df s r s' :
  store_stage w key df s = (r, s') →
  (∃ e, r = Err e ∧ _normalize_df w df = Err e ∧ s' = s)
  ∨ (∃ out l l',
        _normalize_df w df = Ok out ∧ r = Ok l
        ∧ (l ∉ dom (heap s)) ∧ (l' ∉ dom (heap s)) ∧ l ≠ l'
        ∧ s' = mkState (<[l' := out]> (<[l := out]> (heap s)))
                       (<[key := mkEntry (time_time w (clock_reads s)) l']> (_CACHE s))
                       (trace s) (S (clock_reads s))).
Proof.
  destruct (_normalize_df w df) as [out|e] eqn:Hn.
  - destruct (store_stage_ok w key df out s Hn) as (l & l' & Hl & Hl' & Hne & ->).
    intros [= <- <-]. right. exists out, l, l'. done.
  - rewrite (store_stage_err _ _ _ _ _ Hn). intros [= <- <-]. left. eauto.
Qed.

(** Everything a run of the miss path can do to the state. *)
Lemma fetch_fresh_effects w ticker start end_ interval provider key s r s' :
  fetch_fresh w ticker start end_ interval provider key s = (r, s') →
  ∃ evs,
    trace s' = trace s ++ evs
    ∧ (PyStr.in_tuple provider ["polygon"; "auto"] = true →
        ∃ rest, evs = (_fetch_polygon w ticker (Some start) (Some end_) interval
                         (Some (default "" (env_POLYGON_API_KEY w)))).2 ++ rest)
    ∧ (provider = "yahoo" → evs = (_fetch_yahoo w ticker start end_ interval).2)
    ∧ ((∃ err, r = Err err ∧ heap s' = heap s ∧ _CACHE s' = _CACHE s)
       ∨ (∃ raw out l l',
             r = Ok l
             ∧ ((∃ evp, _fetch_polygon w ticker (Some start) (Some end_) interval
                          (Some (default "" (env_POLYGON_API_KEY w))) = (Ok raw, evp))
                ∨ (∃ evy, _fetch_yahoo w ticker start end_ interval = (Ok raw, evy)))
             ∧ _normalize_df w (Some raw) = Ok out
             ∧ (l ∉ dom (heap s)) ∧ (l' ∉ dom (heap s)) ∧ l ≠ l'
             ∧ heap s' = <[l' := out]> (<[l := out]> (heap s))
             ∧ _CACHE s' = <[key := mkEntry (time_time w (clock_reads s)) l']> (_CACHE s))).
Proof.
  intros (evs & [Hpoly Hyahoo] & Hrun)%fetch_fresh_inv. exists evs.
  destruct Hrun as [(e & -> & ->)|(df & Hdf & Hstore)].
  { split_and!; [done..|]. left. eauto. }
  apply store_stage_inv in Hstore
    as [(e & -> & _ & ->)|(out & l & l' & Hn & -> & Hl & Hl' & Hne & ->)].
  { split_and!; [done..|]. left. eauto. }
  split_and!; [done..|]. right.
  destruct Hdf as [->|(raw & -> & Hraw)]; [discriminate|].
  exists raw, out, l, l'. done.
Qed.

(** C5. A cache entry younger than 900 seconds is answered from the
    cache: the caller gets a new object with the stored contents, nothing
    is fetched or printed and the cache is unchanged.  An entry aged 900
    seconds or more is skipped, not removed: the call runs the miss path,
    the key stays in the cache (with its old entry if the fetch fails), and
    the provider adapter is called again. *)
Theorem cache_lookup_respects_ttl w ticker start end_ interval provider s e :
  _CACHE s !! fetch_key w ticker start end_ interval provider = Some e →
  (time_time w (clock_reads s) - entry_ts e < 900 →
     ∀ df, heap s !! entry_df e = Some df →
     ∃ l s', fetch_ohlcv w ticker start end_ interval provider s = (Ok l, s')
       ∧ l ≠ entry_df e
       ∧ heap s' !! l = Some df
       ∧ cached_frame s' (fetch_key w ticker start end_ interval provider) = Some df
       ∧ _CACHE s' = _CACHE s
       ∧ trace s' = trace s)
  ∧ (900 ≤ time_time w (clock_reads s) - entry_ts e →
     fetch_ohlcv w ticker start end_ interval provider s
     = fetch_fresh w ticker (effective_start w start) (effective_end w end_) interval
                   (resolve_provider provider)
                   (fetch_key w ticker start end_ interval provider) (_now w s).2
     ∧ ∀ r s', fetch_ohlcv w ticker start end_ interval provider s = (r, s') →
         is_Some (_CACHE s' !! fetch_key w ticker start end_ interval provider)
         ∧ (∀ err, r = Err err →
              _CACHE s' !! fetch_key w ticker start end_ interval provider = Some e)
         ∧ (PyStr.in_tuple (resolve_provider provider) ["polygon"; "auto"] = true →
              ∃ rest, trace s'
                      = trace s ++ (polygon_call w ticker start end_ interval).2 ++ rest)
         ∧ (resolve_provider provider = "yahoo" →
              trace s' = trace s ++ [YfDownload ticker (effective_start w start)
                                                (effective_end w end_) interval])).
Proof.
  intros Hlook. set (key := fetch_key w ticker start end_ interval provider) in *. split.
  - intros Hlt df Hdf. change 900 with _TTL_SEC in Hlt.
    rewrite (fetch_ohlcv_hit _ _ _ _ _ _ _ e Hlook Hlt). rewrite Hdf. cbn [default].
    eexists _, _. split; [reflexivity|]. unfold cached_frame. cbn [heap _CACHE trace].
    assert (fresh (dom (heap s)) ≠ entry_df e) as Hne.
    { intros Heq. apply (is_fresh (dom (heap s))). rewrite Heq.
      apply elem_of_dom. eauto. }
    rewrite lookup_insert_eq, Hlook. cbn [mbind option_bind].
    rewrite lookup_insert_ne by done. done.
  - intros Hge.
    assert (fetch_ohlcv w ticker start end_ interval provider s
            = fetch_fresh w ticker (effective_start w start) (effective_end w end_) interval
                (resolve_provider provider) key (_now w s).2) as Hrun.
    { rewrite fetch_ohlcv_miss.
      - fold key. unfold after_cache_test. rewrite Hlook. reflexivity.
      - fold key. unfold cache_fresh. rewrite Hlook. apply Z.ltb_ge. exact Hge. }
    split; [exact Hrun|]. intros r s'. rewrite Hrun.
    intros (evs & Htr & Hpoly & Hyahoo & Hcases)%fetch_fresh_effects.
    cbn [_now snd heap _CACHE trace clock_reads] in *. split_and!.
    + destruct Hcases as [(err & _ & _ & ->)|(raw & out & l & l' & _ & _ & _ & _ & _ & _ & _ & ->)].
      * rewrite Hlook. eauto.
      * rewrite lookup_insert_eq. eauto.
    + intros err ->.
      destruct Hcases as [(err' & _ & _ & ->)|(raw & out & l & l' & [=] & _)]. exact Hlook.
    + intros Hin. destruct (Hpoly Hin) as [rest ->]. exists rest. exact Htr.
    + intros Hy. rewrite (Hyahoo Hy), fetch_yahoo_events in Htr. exact Htr.
Qed.

Lemma cache_lookup_respects_ttl_witness :
  (∃ l s', fetch_ohlcv world_no_key "AAPL" None None "1d" (Some "yahoo")
                       (demo_cached_state 101) = (Ok l, s')
           ∧ heap s' !! l = Some (demo_frame [1] [Num 5] [Num 5])
           ∧ trace s' = [])
  ∧ is_Some (_CACHE (fetch_ohlcv world_no_key "AAPL" None None "1d" (Some "yahoo")
                                 (demo_cached_state 100)).2 !! demo_key)
  ∧ trace (fetch_ohlcv world_no_key "AAPL" None None "1d" (Some "yahoo")
                       (demo_cached_state 100)).2 = [demo_yahoo_request].
Proof.
  split.
  - destruct (cache_lookup_respects_ttl world_no_key "AAPL" None None "1d" (Some "yahoo")
                (demo_cached_state 101) (mkEntry 101 1%positive)) as [Hhit _];
      [vm_compute; reflexivity|].
    destruct (Hhit ltac:(vm_compute; reflexivity) (demo_frame [1] [Num 5] [Num 5])
                   ltac:(vm_compute; reflexivity))
      as (l & s' & Hrun & _ & Hl & _ & _ & Htr).
    exists l, s'. split_and!; assumption.
  - destruct (cache_lookup_respects_ttl world_no_key "AAPL" None None "1d" (Some "yahoo")
                (demo_cached_state 100) (mkEntry 100 1%positive)) as [_ Hstale];
      [vm_compute; reflexivity|].
    destruct (Hstale ltac:(vm_compute; discriminate)) as [_ Hall].
    destruct (fetch_ohlcv world_no_key "AAPL" None None "1d" (Some "yahoo")
                          (demo_cached_state 100)) as [r s'] eqn:Hrun.
    destruct (Hall r s' eq_refl) as (Hkept & _ & _ & Hyahoo).
    split; [exact Hkept|]. apply Hyahoo. vm_compute. reflexivity.
Defined.

(** ** Object identity *)

Lemma cache_wf_initial : cache_wf initial_state.
Proof. intros key e H. cbn in H. rewrite lookup_empty in H. discriminate. Qed.

Lemma cache_fresh_true w s key :
  cache_fresh w s key = true →
  ∃ e, _CACHE s !! key = Some e ∧ time_time w (clock_reads s) - entry_ts e < _TTL_SEC.
Proof.
  unfold cache_fresh. destruct (_CACHE s !! key) as [e|]; [|discriminate].
  intros H%Z.ltb_lt. eauto.
Qed.

(** What a successful call leaves behind: the returned object is new, and
    the cache refers only to objects that are not the returned one. *)
Lemma fetch_ohlcv_ok_heap w ticker start end_ interval provider s l s' :
  cache_wf s →
  fetch_ohlcv w ticker start end_ interval provider s = (Ok l, s') →
  (l ∉ dom (heap s))
  ∧ is_Some (heap s' !! l)
  ∧ (∀ key e, _CACHE s' !! key = Some e → entry_df e ≠ l ∧ is_Some (heap s' !! entry_df e)).
Proof.
  intros Hwf.
  set (key := fetch_key w ticker start end_ interval provider).
  destruct (cache_fresh w s key) eqn:Hfresh.
  - apply cache_fresh_true in Hfresh as (e & Hlook & Hlt).
    rewrite (fetch_ohlcv_hit _ _ _ _ _ _ _ e Hlook Hlt). intros [= <- <-].
    cbn [heap _CACHE]. split_and!.
    + apply is_fresh.
    + rewrite lookup_insert_eq. eauto.
    + intros k e' He'. pose proof (Hwf _ _ He') as Hin.
      assert (entry_df e' ≠ fresh (dom (heap s))) as Hne.
      { intros Heq. apply (is_fresh (dom (heap s))). rewrite <- Heq.
        by apply elem_of_dom. }
      split; [exact Hne|]. rewrite lookup_insert_ne by done. exact Hin.
  - rewrite fetch_ohlcv_miss by exact Hfresh. fold key.
    destruct (after_cache_test_frame w key s) as (Hh & Hc & _).
    intros (evs & _ & _ & _ & Hcases)%fetch_fresh_effects.
    destruct Hcases as [(err & [=] & _)
                       |(raw & out & l0 & l' & [= <-] & _ & _ & Hl & Hl' & Hne & Hheap & Hcache)].
    rewrite Hh in Hl, Hl', Hheap. rewrite Hc in Hcache. rewrite Hheap, Hcache.
    split_and!.
    + exact Hl.
    + rewrite lookup_insert_ne by done. rewrite lookup_insert_eq. eauto.
    + intros k e'. destruct (decide (k = key)) as [->|Hk].
      * rewrite lookup_insert_eq. intros [= <-]. cbn [entry_df].
        split; [done|]. rewrite lookup_insert_eq. eauto.
      * rewrite lookup_insert_ne by done. intros He'.
        pose proof (Hwf _ _ He') as Hin.
        assert (entry_df e' ∈ dom (heap s)) as Hdom by by apply elem_of_dom.
        assert (entry_df e' ≠ l) by (intros Heq; rewrite Heq in Hdom; contradiction).
        assert (entry_df e' ≠ l') by (intros Heq; rewrite Heq in Hdom; contradiction).
        split; [done|]. rewrite !lookup_insert_ne by done. exact Hin.
Qed.

(** [cache_wf] holds initially and after every call, whatever its
    outcome, so it is an invariant of the process. *)
Lemma fetch_ohlcv_preserves_cache_wf w ticker start end_ interval provider s r s' :
  cache_wf s →
  fetch_ohlcv w ticker start end_ interval provider s = (r, s') →
  cache_wf s'.
Proof.
  intros Hwf Hrun. destruct r as [l|err].
  { intros key e He.
    destruct (fetch_ohlcv_ok_heap _ _ _ _ _ _ _ _ _ Hwf Hrun) as (_ & _ & Hcache).
    by apply (Hcache key e). }
  set (key := fetch_key w ticker start end_ interval provider) in *.
  destruct (cache_fresh w s key) eqn:Hfresh.
  - apply cache_fresh_true in Hfresh as (e & Hlook & Hlt).
    rewrite (fetch_ohlcv_hit _ _ _ _ _ _ _ e Hlook Hlt) in Hrun. discriminate.
  - rewrite fetch_ohlcv_miss in Hrun by exact Hfresh. fold key in Hrun.
    destruct (after_cache_test_frame w key s) as (Hh & Hc & _).
    apply fetch_fresh_effects in Hrun as (evs & _ & _ & _ & Hcases).
    destruct Hcases as [(err' & _ & Hheap & Hcache)|(raw & out & l & l' & [=] & _)].
    intros k e. rewrite Hheap, Hcache, Hh, Hc. apply Hwf.
Qed.

(** C6. The object [fetch_ohlcv] returns, on a cache hit and on a fresh
    fetch alike, is not an object the cache refers to: it is newly
    created, no cache entry points to it, and whatever the caller writes
    into it leaves the frame stored under every key unchanged. *)
Theorem returned_frame_is_private w ticker start end_ interval provider s l s' :
  cache_wf s →
  fetch_ohlcv w ticker start end_ interval provider s = (Ok l, s') →
  (l ∉ dom (heap s))
  ∧ (∀ key e, _CACHE s' !! key = Some e → entry_df e ≠ l)
  ∧ (∀ df' key, cached_frame (mutate l df' s') key = cached_frame s' key)
  ∧ cache_wf (s')
  ∧ (∀ df', cache_wf (mutate l df' s')).
Proof.
  intros Hwf Hrun.
  destruct (fetch_ohlcv_ok_heap _ _ _ _ _ _ _ _ _ Hwf Hrun) as (Hl & Hsome & Hcache).
  split_and!.
  - exact Hl.
  - intros key e He. by apply (Hcache key e).
  - intros df' key. unfold cached_frame, mutate. cbn [heap _CACHE].
    destruct (_CACHE s' !! key) as [e|] eqn:He; [|reflexivity].
    cbn [mbind option_bind]. destruct (Hcache key e He) as [Hne _].
    rewrite lookup_insert_ne by done. reflexivity.
  - intros key e He. by apply (Hcache key e).
  - intros df' key e He. unfold mutate in *. cbn [heap _CACHE] in *.
    destruct (Hcache key e He) as [Hne Hin]. rewrite lookup_insert_ne by done. exact Hin.
Qed.

(** ** The returned Series *)



Lemma cache_wf_demo ts : cache_wf (demo_cached_state ts).
Proof.
  intros key e H. cbn [demo_cached_state _CACHE heap] in *.
  apply lookup_singleton_Some in H as [_ <-]. cbn [entry_df].
  rewrite lookup_singleton_eq. eauto.
Qed.

Lemma returned_frame_is_private_witness :
  cached_frame
    (mutate 1%positive (mkDF [] [])
       (fetch_ohlcv world_no_key "AAPL" None None "1d" (Some "yahoo") initial_state).2)
    demo_key
  = Some yahoo_bars
  ∧ cached_frame
      (mutate 2%positive (mkDF [] [])
         (fetch_ohlcv world_no_key "AAPL" None None "1d" (Some "yahoo")
                      (demo_cached_state 101)).2)
      demo_key
    = Some (demo_frame [1] [Num 5] [Num 5]).
Proof.
  split.
  - destruct (returned_frame_is_private world_no_key "AAPL" None None "1d" (Some "yahoo")
                initial_state 1%positive
                (fetch_ohlcv world_no_key "AAPL" None None "1d" (Some "yahoo")
                             initial_state).2 cache_wf_initial)
      as (_ & _ & Hsame & _); [vm_compute; reflexivity|].
    rewrite Hsame. vm_compute. reflexivity.
  - destruct (returned_frame_is_private world_no_key "AAPL" None None "1d" (Some "yahoo")
                (demo_cached_state 101) 2%positive
                (fetch_ohlcv world_no_key "AAPL" None None "1d" (Some "yahoo")
                             (demo_cached_state 101)).2 (cache_wf_demo 101))
      as (_ & _ & Hsame & _); [vm_compute; reflexivity|].
    rewrite Hsame. vm_compute. reflexivity.
Defined.


(** ** Where the code leaves the stated behaviour *)

(** C1. When Yahoo answers with one bar whose Close is null, the
    emptiness test of [_fetch_yahoo] passes, the normalizer drops the bar,
    and [fetch_ohlcv] returns a table with no rows, and caches it,
    instead of raising. *)
Theorem fetch_returns_empty_series :
  (fetch_ohlcv world_yahoo_null_close "AAPL" None None "1d" (Some "yahoo") initial_state).1
  = Ok 1%positive
  ∧ heap (fetch_ohlcv world_yahoo_null_close "AAPL" None None "1d" (Some "yahoo")
                      initial_state).2 !! 1%positive
    = Some (mkDF [("Close", []); ("Adj Close", [])] [])
  ∧ df_empty (mkDF [("Close", []); ("Adj Close", [])] []) = true
  ∧ cached_frame (fetch_ohlcv world_yahoo_null_close "AAPL" None None "1d" (Some "yahoo")
                              initial_state).2 demo_key
    = Some (mkDF [("Close", []); ("Adj Close", [])] []).
Proof. vm_compute. done. Qed.


(** * Further properties of the module *)

(** ** More on the normalizer *)

Lemma rmapM_length {A B} (f : A → result B) l l' :
  rmapM f l = Ok l' → length l' = length l.
Proof.
  revert l'. induction l as [|x l IH]; intros l'; cbn.
  - intros [= <-]. reflexivity.
  - destruct (f x) as [y|]; cbn; [|discriminate].
    destruct (rmapM f l) as [ys|]; cbn; [|discriminate].
    intros [= <-]. cbn. rewrite (IH ys); reflexivity.
Qed.

(** X1. The column names of a normalized table are the stripped,
    title-cased names of the input, in order, followed by "Adj Close" when
    no input column had that name; the [rename] dict contributes
    nothing. *)
Theorem normalize_output_columns w df out :
  _normalize_df w (Some df) = Ok out →
  column_names out
  = (canonical_name <$> column_names df)
    ++ (if has_column "Adj Close" (rename_columns canonical_name df)
        then [] else ["Adj Close"]).
Proof.
  intros (cols & idx & Hcols & _ & [_ ->]%dropna_subset_inv)%normalize_inv.
  cbn [columns index]. rewrite column_names_fmap.
  destruct Hcols as [[-> ->]|[-> (col & _ & ->)]].
  - rewrite app_nil_r. apply column_names_rename.
  - rewrite fmap_app. f_equal. apply column_names_rename.
Qed.

Lemma normalize_output_columns_witness :
  column_names
    (mkDF [("Close", [Num 7; Num 8]); ("Adjclose", [Num 2; Num 3]);
           ("Adj Close", [Num 7; Num 8])] [LTs 20; LTs 30])
  = (canonical_name <$> column_names prices_frame)
    ++ (if has_column "Adj Close" (rename_columns canonical_name prices_frame)
        then [] else ["Adj Close"]).
Proof.
  apply (normalize_output_columns world_no_key prices_frame). vm_compute. reflexivity.
Defined.

(** X2. A table with ASCII column names, none of which is "Close" after
    stripping and title-casing, cannot be normalized: the call raises, and
    when the index can be parsed the exception is the
    [KeyError(['Close'])] of [dropna]. *)
Theorem normalize_requires_close w df :
  forallb PyStr.is_ascii (column_names df) = true →
  has_column "Close" (rename_columns canonical_name df) = false →
  ∃ e, _normalize_df w (Some df) = Err e
       ∧ (∀ idx, rmapM (to_datetime w) (index df) = Ok idx →
                 e = KeyError (KeyList ["Close"]) ∧ exn_str e = "['Close']").
Proof.
  intros _ Hno. rewrite normalize_eq. cbn zeta. rewrite Hno, andb_false_r. cbn [rbind].
  pose proof (proj1 (has_column_select _ _) Hno) as Hsel.
  destruct (rename_columns canonical_name df) as [cols1 idx1] eqn:Hdf1.
  assert (idx1 = index df) as -> by (unfold rename_columns in Hdf1; congruence).
  cbn [index columns].
  destruct (rmapM (to_datetime w) (index df)) as [idx|e]; cbn [rbind].
  - unfold dropna_subset. rewrite (select_index _ _ idx (index df)), Hsel.
    exists (KeyError (KeyList ["Close"])). split; [reflexivity|]. intros; split; reflexivity.
  - exists e. split; [reflexivity|]. intros idx [=].
Qed.

Lemma normalize_requires_close_witness :
  ∃ e, _normalize_df world_no_key (Some (mkDF [("open", [Num 1]); ("c", [Num 2])] [LTs 1]))
       = Err e
       ∧ (∀ idx, rmapM (to_datetime world_no_key) [LTs 1] = Ok idx →
                 e = KeyError (KeyList ["Close"]) ∧ exn_str e = "['Close']").
Proof.
  apply (normalize_requires_close world_no_key
           (mkDF [("open", [Num 1]); ("c", [Num 2])] [LTs 1])); reflexivity.
Defined.

Lemma row_mask_single idx (close : list Cell) :
  length close = length idx → row_mask idx [close] = notna <$> close.
Proof.
  unfold row_mask. cbn [foldr]. revert idx.
  induction close as [|c close IH]; intros [|i idx] Hlen; cbn in *; try lia;
    try reflexivity.
  rewrite andb_true_r. f_equal. apply IH. lia.
Qed.

Lemma has_column_of_select name df col :
  select name df = [col] → has_column name df = true.
Proof.
  intros Hsel. destruct (has_column name df) eqn:H; [reflexivity|].
  apply has_column_select in H. congruence.
Qed.

Lemma normalize_single_close w df close idx :
  select "Close" (rename_columns canonical_name df) = [close] →
  length close = length (index df) →
  rmapM (to_datetime w) (index df) = Ok idx →
  _normalize_df w (Some df)
  = Ok (mkDF (prod_map id (keep (notna <$> close))
                <$> (columns (rename_columns canonical_name df)
                     ++ (if has_column "Adj Close" (rename_columns canonical_name df)
                         then [] else [("Adj Close", close)])))
             (keep (notna <$> close) idx)).
Proof.
  intros Hsel Hlen Hidx. rewrite normalize_eq. cbn zeta.
  pose proof (has_column_of_select _ _ _ Hsel) as Hclose.
  pose proof (rmapM_length _ _ _ Hidx) as Hlen'.
  destruct (rename_columns canonical_name df) as [cols1 idx1] eqn:Hdf1.
  assert (idx1 = index df) as -> by (unfold rename_columns in Hdf1; congruence).
  rewrite Hclose, andb_true_r.
  destruct (has_column "Adj Close" (mkDF cols1 (index df))) eqn:Hadj; cbn [negb].
  - cbn [rbind index columns]. rewrite Hidx. cbn [rbind].
    unfold dropna_subset. rewrite (select_index _ _ idx (index df)), Hsel.
    cbn [columns index]. rewrite row_mask_single by lia. rewrite app_nil_r. reflexivity.
  - unfold setitem_new_from. rewrite Hsel. cbn [rbind index columns]. rewrite Hidx.
    cbn [rbind]. unfold dropna_subset. rewrite select_app.
    rewrite (select_index _ _ idx (index df)), Hsel.
    rewrite select_cons. cbn [decide]. change (select "Close" (mkDF [] idx)) with (@nil (list Cell)).
    destruct (decide ("Adj Close" = "Close")) as [Heq|_]; [discriminate Heq|].
    cbn [app columns index]. rewrite row_mask_single by lia. reflexivity.
Qed.


(** X3. For a table with exactly one Close column, as long as the index,
    whose labels all parse, normalization succeeds and is a row filter:
    the rows whose Close is non-null survive, in their original order, in
    the index and in every column alike (including an Adj Close column
    copied from Close when the input had none). *)
Theorem normalize_is_row_filter w df close idx :
  select "Close" (rename_columns canonical_name df) = [close] →
  length close = length (index df) →
  rmapM (to_datetime w) (index df) = Ok idx →
  _normalize_df w (Some df)
  = Ok (mkDF (prod_map id (keep (notna <$> close))
                <$> (columns (rename_columns canonical_name df)
                     ++ (if has_column "Adj Close" (rename_columns canonical_name df)
                         then [] else [("Adj Close", close)])))
             (keep (notna <$> close) idx)).
Proof. apply normalize_single_close. Qed.

Lemma normalize_is_row_filter_witness :
  _normalize_df world_no_key (Some prices_frame)
  = Ok (mkDF [("Close", [Num 7; Num 8]); ("Adjclose", [Num 2; Num 3]);
              ("Adj Close", [Num 7; Num 8])] [LTs 20; LTs 30]).
Proof.
  rewrite (normalize_is_row_filter world_no_key prices_frame [NaN; Num 7; Num 8]
             [LTs 10; LTs 20; LTs 30]); reflexivity.
Defined.

(** ** [latest_close_date] *)

(** X4. On a table produced by the normalizer, [latest_close_date]
    fails exactly when the table has no rows; otherwise it returns the
    timestamp of the last row without parsing anything. *)
Theorem latest_close_date_normalized w df out :
  _normalize_df w (Some df) = Ok out →
  (index out = [] ∧ ∃ e, latest_close_date w out = Err e)
  ∨ (∃ t, last (index out) = Some (LTs t) ∧ latest_close_date w out = Ok t).
Proof.
  intros Hts%normalize_index_ts. unfold latest_close_date.
  destruct (last (index out)) as [[s|t]|] eqn:Hlast.
  - apply last_Some in Hlast as [l' Hl]. rewrite Hl in Hts.
    apply Forall_app in Hts as [_ Hts]. apply Forall_inv in Hts. contradiction.
  - right. eauto.
  - left. apply last_None in Hlast. eauto.
Qed.

Lemma latest_close_date_normalized_witness :
  (index (mkDF [("Close", [Num 7; Num 8]); ("Adjclose", [Num 2; Num 3]);
                ("Adj Close", [Num 7; Num 8])] [LTs 20; LTs 30]) = []
   ∧ ∃ e, latest_close_date world_no_key
            (mkDF [("Close", [Num 7; Num 8]); ("Adjclose", [Num 2; Num 3]);
                   ("Adj Close", [Num 7; Num 8])] [LTs 20; LTs 30]) = Err e)
  ∨ (∃ t, last [LTs 20; LTs 30] = Some (LTs t)
          ∧ latest_close_date world_no_key
              (mkDF [("Close", [Num 7; Num 8]); ("Adjclose", [Num 2; Num 3]);
                     ("Adj Close", [Num 7; Num 8])] [LTs 20; LTs 30]) = Ok t).
Proof.
  apply (latest_close_date_normalized world_no_key prices_frame). vm_compute. reflexivity.
Defined.

(** X5. When the dates of a normalized table are strictly ascending, the
    date [latest_close_date] returns is the latest one: no row is later. *)
Theorem latest_close_date_is_latest w df out t :
  _normalize_df w (Some df) = Ok out →
  dates_strictly_ascending out →
  latest_close_date w out = Ok t →
  Forall (λ l, label_le l (LTs t)) (index out).
Proof.
  intros Hts%normalize_index_ts Hsorted. unfold latest_close_date, dates_strictly_ascending in *.
  destruct (last (index out)) as [[s|t']|] eqn:Hlast; [| |discriminate].
  - apply last_Some in Hlast as [l' Hl]. rewrite Hl in Hts.
    apply Forall_app in Hts as [_ Hts]. apply Forall_inv in Hts. contradiction.
  - intros [= ->]. apply last_Some in Hlast as [l' Hl]. rewrite Hl in *.
    apply StronglySorted_app in Hsorted as (Hlt & _ & _).
    apply Forall_app. split.
    + apply Forall_forall. intros x Hx. specialize (Hlt x (LTs t) Hx).
      rewrite list_elem_of_singleton in Hlt. specialize (Hlt eq_refl).
      destruct x; cbn in *; [contradiction|lia].
    + constructor; [cbn; lia|constructor].
Qed.

Lemma latest_close_date_is_latest_witness :
  Forall (λ l, label_le l (LTs 30)) [LTs 20; LTs 30].
Proof.
  apply (latest_close_date_is_latest world_no_key prices_frame
           (mkDF [("Close", [Num 7; Num 8]); ("Adjclose", [Num 2; Num 3]);
                  ("Adj Close", [Num 7; Num 8])] [LTs 20; LTs 30]) 30).
  - vm_compute. reflexivity.
  - unfold dates_strictly_ascending. cbn. repeat constructor; cbn; lia.
  - reflexivity.
Defined.

(** ** More on the Polygon adapter *)

Lemma agg_le_trans : Transitive agg_le.
Proof. intros a b c. unfold agg_le. lia. Qed.

Lemma agg_le_total : Total agg_le.
Proof. intros a b. unfold agg_le. lia. Qed.

Lemma insert_by_date_perm a l : insert_by_date a l ≡ₚ a :: l.
Proof.
  induction l as [|b l IH]; [reflexivity|]. cbn [insert_by_date].
  destruct (decide (agg_le a b)); [reflexivity|].
  rewrite IH. apply Permutation_swap.
Qed.

Lemma sort_by_date_perm l : sort_by_date l ≡ₚ l.
Proof.
  induction l as [|a l IH]; [reflexivity|]. unfold sort_by_date in *. cbn [foldr].
  rewrite insert_by_date_perm, IH. reflexivity.
Qed.

Lemma insert_by_date_sorted a l :
  StronglySorted agg_le l → StronglySorted agg_le (insert_by_date a l).
Proof.
  induction 1 as [|b l Hl IH Hb]; cbn [insert_by_date].
  - repeat constructor.
  - destruct (decide (agg_le a b)) as [Hab|Hab].
    + constructor; [by constructor|]. constructor; [exact Hab|].
      eapply Forall_impl; [exact Hb|]. intros c Hbc. by apply (agg_le_trans a b c).
    + constructor; [exact IH|]. rewrite insert_by_date_perm.
      constructor; [|exact Hb]. destruct (agg_le_total a b); [contradiction|done].
Qed.

Lemma sort_by_date_sorted l : StronglySorted agg_le (sort_by_date l).
Proof.
  induction l as [|a l IH]; [constructor|]. unfold sort_by_date in *. cbn [foldr].
  by apply insert_by_date_sorted.
Qed.

Lemma polygon_frame_index_sorted results :
  StronglySorted label_le (index (polygon_frame results)).
Proof.
  unfold polygon_frame. cbn [index].
  apply (StronglySorted_fmap _ agg_le); [intros a b H; exact H|].
  apply sort_by_date_sorted.
Qed.

Lemma polygon_frame_index_perm results :
  index (polygon_frame results) ≡ₚ (λ a, LTs (agg_t a)) <$> results.
Proof.
  unfold polygon_frame. cbn [index]. apply fmap_Permutation, sort_by_date_perm.
Qed.

(** X6. A table returned by [_polygon_aggs] comes from a 200 response
    with a non-empty result list; it has one row per result, its dates are
    those of the results arranged in ascending order, and its Adj Close
    column equals its Close column. *)
Theorem polygon_aggs_table w ticker start end_ timespan multiplier api_key df evs :
  _polygon_aggs w ticker start end_ timespan multiplier api_key = (Ok df, evs) →
  ∃ r results,
    requests_get w (_POLYGON_URL (PyStr.upper ticker) (pretty multiplier) timespan start end_)
                 [ ("adjusted", "true"); ("sort", "asc"); ("limit", "50000");
                   ("apiKey", api_key) ] = Ok r
    ∧ status_code r = 200
    ∧ json_results r = Ok (Some results)
    ∧ results ≠ []
    ∧ index df ≡ₚ (λ a, LTs (agg_t a)) <$> results
    ∧ StronglySorted label_le (index df)
    ∧ select "Adj Close" df = select "Close" df
    ∧ column_names df = ["Open"; "High"; "Low"; "Close"; "Adj Close"; "Volume"].
Proof.
  unfold _polygon_aggs.
  destruct (requests_get w _ _) as [r|] eqn:Hget; [|discriminate].
  destruct (status_code r =? 200) eqn:Hstatus; cbn [negb]; [|discriminate].
  destruct (json_results r) as [[results|]|] eqn:Hjson; cbn [default from_option id];
    try discriminate.
  destruct results as [|a results]; [discriminate|].
  destruct (negb (forallb _ _)); [discriminate|].
  destruct (negb (has_key agg_c _)); [discriminate|].
  destruct (missing_columns _); [|discriminate].
  intros [= <- _]. exists r, (a :: results). split_and!.
  - reflexivity.
  - by apply Z.eqb_eq.
  - exact Hjson.
  - discriminate.
  - apply polygon_frame_index_perm.
  - apply polygon_frame_index_sorted.
  - reflexivity.
  - reflexivity.
Qed.

Lemma polygon_aggs_table_witness :
  ∃ r results,
    requests_get world_polygon_up
                 (_POLYGON_URL (PyStr.upper "aapl") (pretty 1) "day" "2024-01-01" "2024-01-10")
                 [ ("adjusted", "true"); ("sort", "asc"); ("limit", "50000");
                   ("apiKey", "k") ] = Ok r
    ∧ status_code r = 200
    ∧ json_results r = Ok (Some results)
    ∧ results ≠ []
    ∧ [LTs 10; LTs 20; LTs 30] ≡ₚ (λ a, LTs (agg_t a)) <$> results
    ∧ StronglySorted label_le [LTs 10; LTs 20; LTs 30]
    ∧ select "Adj Close" (polygon_frame demo_aggs) = select "Close" (polygon_frame demo_aggs)
    ∧ column_names (polygon_frame demo_aggs)
      = ["Open"; "High"; "Low"; "Close"; "Adj Close"; "Volume"].
Proof.
  apply (polygon_aggs_table world_polygon_up "aapl" "2024-01-01" "2024-01-10" "day" 1 "k"
           (polygon_frame demo_aggs)
           [HttpGet "https://api.polygon.io/v2/aggs/ticker/AAPL/range/1/day/2024-01-01/2024-01-10"
              [("adjusted", "true"); ("sort", "asc"); ("limit", "50000"); ("apiKey", "k")]]).
  vm_compute. reflexivity.
Defined.

Lemma polygon_aggs_events_eq w ticker start end_ timespan multiplier api_key :
  (_polygon_aggs w ticker start end_ timespan multiplier api_key).2
  = [HttpGet (_POLYGON_URL (PyStr.upper ticker) (pretty multiplier) timespan start end_)
             [ ("adjusted", "true"); ("sort", "asc"); ("limit", "50000");
               ("apiKey", api_key) ]].
Proof. unfold _polygon_aggs. repeat case_match; reflexivity. Qed.

(** X7. With a credential and parseable dates, [_fetch_polygon] issues
    exactly one request, whatever the outcome: multiplier 1, time span
    "minute" for the intervals "1m", "1min", "minute" (in any letter case)
    and "day" for every other interval, the ticker in upper case, and the
    dates as re-formatted by the parser (or the two-year default when a
    date is absent). *)
Theorem fetch_polygon_request w ticker start end_ interval api_key s0 e0 :
  PyStr.is_empty api_key = false →
  norm w start = Ok s0 →
  norm w end_ = Ok e0 →
  (_fetch_polygon w ticker start end_ interval (Some api_key)).2
  = [HttpGet (_POLYGON_URL (PyStr.upper ticker) "1" (polygon_timespan interval)
                (opt_or_else s0 (isoformat w (utc_today w - 365 * 2)))
                (opt_or_else e0 (isoformat w (utc_today w))))
             [ ("adjusted", "true"); ("sort", "asc"); ("limit", "50000");
               ("apiKey", api_key) ]].
Proof.
  intros Hkey Hs He. unfold _fetch_polygon, polygon_timespan. cbn [key_missing].
  rewrite Hkey, Hs, He. cbn [default].
  destruct (PyStr.in_tuple (PyStr.lower interval) ["1m"; "1min"; "minute"]);
    apply polygon_aggs_events_eq.
Qed.

Lemma fetch_polygon_request_witness :
  (_fetch_polygon world_polygon_up "aapl" None (Some "10 Jan 2024") "1H" (Some "k")).2
  = [HttpGet (_POLYGON_URL (PyStr.upper "aapl") "1" (polygon_timespan "1H")
                (opt_or_else None (isoformat world_polygon_up (utc_today world_polygon_up - 365 * 2)))
                (opt_or_else (Some "D20000") (isoformat world_polygon_up (utc_today world_polygon_up))))
             [ ("adjusted", "true"); ("sort", "asc"); ("limit", "50000"); ("apiKey", "k") ]].
Proof.
  apply (fetch_polygon_request world_polygon_up "aapl" None (Some "10 Jan 2024") "1H" "k"
           None (Some "D20000")); reflexivity.
Defined.

(** X8. [_fetch_polygon] contacts the network only when a credential is
    present and both dates parse: a missing key or an unparseable start or
    end date ends the call with no request issued. *)
Theorem fetch_polygon_fails_before_request w ticker start end_ interval api_key :
  key_missing api_key = true
  ∨ (∃ e, norm w start = Err e)
  ∨ (∃ e, norm w end_ = Err e) →
  ∃ e, _fetch_polygon w ticker start end_ interval api_key = (Err e, []).
Proof.
  unfold _fetch_polygon. intros H.
  destruct (key_missing api_key); [eauto|].
  destruct (norm w start) as [s0|es]; [|eauto].
  destruct (norm w end_) as [e0|ee]; [|eauto].
  destruct H as [H|[[e H]|[e H]]]; discriminate.
Qed.

Lemma fetch_polygon_fails_before_request_witness :
  ∃ e, _fetch_polygon
         (mkWorld (Some "k") 20000 (λ d, "D" +:+ pretty d)
                  (λ _, Err (LibraryError "ParserError" "Unknown string format"))
                  (λ _, Err (ValueError "")) (λ n, 0) (λ _ _, Err connect_timeout)
                  (λ _ _ _ _, Ok yahoo_bars))
         "AAPL" (Some "yesterday-ish") None "1d" (Some "k") = (Err e, []).
Proof.
  apply fetch_polygon_fails_before_request. right. left. eexists. reflexivity.
Defined.

(** ** More on the orchestrator *)

Lemma polygon_frame_canonical results :
  rename_columns canonical_name (polygon_frame results) = polygon_frame results.
Proof. reflexivity. Qed.

(** The frame built from Polygon's results can always be normalized. *)
Lemma normalize_polygon_frame_ok w results :
  ∃ out, _normalize_df w (Some (polygon_frame results)) = Ok out.
Proof.
  eexists.
  apply (normalize_single_close w (polygon_frame results)
           (cell_of agg_c <$> sort_by_date results) (index (polygon_frame results))).
  - reflexivity.
  - unfold polygon_frame. cbn [index]. rewrite !length_fmap. reflexivity.
  - apply rmapM_to_datetime_fixed. unfold polygon_frame. cbn [index].
    apply Forall_fmap, Forall_forall. intros a _. exact I.
Qed.

Lemma polygon_stage_ok w ticker start end_ interval provider s raw evp :
  PyStr.in_tuple provider ["polygon"; "auto"] = true →
  _fetch_polygon w ticker (Some start) (Some end_) interval
                 (Some (default "" (env_POLYGON_API_KEY w))) = (Ok raw, evp) →
  polygon_stage w ticker start end_ interval provider s = (Ok (Some raw), emit evp s).
Proof. intros Hin Hp. unfold polygon_stage. rewrite Hin, Hp. reflexivity. Qed.

Lemma fetch_polygon_events_shape w ticker start end_ interval api_key :
  (_fetch_polygon w ticker start end_ interval api_key).2 = []
  ∨ ∃ url params, (_fetch_polygon w ticker start end_ interval api_key).2 = [HttpGet url params].
Proof.
  unfold _fetch_polygon. repeat case_match; cbn [snd]; auto;
    right; apply polygon_aggs_events.
Qed.

(** X9. When the Polygon adapter succeeds, for provider "polygon" and
    for "auto" alike, the call always returns: the result is the normalized
    Polygon table, it is stored under the key, Yahoo is not called and no
    warning is printed. *)
Theorem polygon_success_is_final w ticker start end_ interval provider s raw evp :
  PyStr.in_tuple (resolve_provider provider) ["polygon"; "auto"] = true →
  cache_fresh w s (fetch_key w ticker start end_ interval provider) = false →
  polygon_call w ticker start end_ interval = (Ok raw, evp) →
  ∃ l s' out,
    fetch_ohlcv w ticker start end_ interval provider s = (Ok l, s')
    ∧ _normalize_df w (Some raw) = Ok out
    ∧ heap s' !! l = Some out
    ∧ cached_frame s' (fetch_key w ticker start end_ interval provider) = Some out
    ∧ trace s' = trace s ++ evp
    ∧ Forall (λ ev, is_yahoo_call ev = false ∧ is_print ev = false) evp.
Proof.
  intros Hprov Hmiss Hcall. rewrite fetch_ohlcv_miss by exact Hmiss.
  set (key := fetch_key w ticker start end_ interval provider) in *.
  destruct (after_cache_test_frame w key s) as (_ & _ & Ht).
  unfold fetch_fresh. erewrite polygon_stage_ok; [|exact Hprov|exact Hcall].
  cbn [yahoo_stage].
  pose proof Hcall as Hraw. apply fetch_polygon_ok in Hraw as (results & _ & ->).
  destruct (normalize_polygon_frame_ok w results) as [out Hn].
  edestruct (store_stage_ok w key (Some (polygon_frame results)) out) as (l & l' & _ & _ & Hne & ->);
    [exact Hn|].
  exists l. eexists. exists out. split_and!; try reflexivity.
  - exact Hn.
  - cbn [heap]. rewrite lookup_insert_ne by done. apply lookup_insert_eq.
  - unfold cached_frame. cbn [heap _CACHE]. rewrite lookup_insert_eq.
    cbn [mbind option_bind entry_df]. apply lookup_insert_eq.
  - cbn [trace emit]. rewrite Ht. reflexivity.
  - unfold polygon_call in Hcall.
    destruct (fetch_polygon_events_shape w ticker (Some (effective_start w start))
                (Some (effective_end w end_)) interval
                (Some (default "" (env_POLYGON_API_KEY w)))) as [H|(url & params & H)];
      rewrite Hcall in H; cbn [snd] in H; subst evp; repeat constructor.
Qed.

Lemma polygon_success_is_final_witness :
  ∃ l s' out,
    fetch_ohlcv world_polygon_up "AAPL" None None "1d" None initial_state = (Ok l, s')
    ∧ _normalize_df world_polygon_up (Some (polygon_frame demo_aggs)) = Ok out
    ∧ heap s' !! l = Some out
    ∧ cached_frame s' (fetch_key world_polygon_up "AAPL" None None "1d" None) = Some out
    ∧ trace s' = trace initial_state ++ [demo_polygon_request]
    ∧ Forall (λ ev, is_yahoo_call ev = false ∧ is_print ev = false) [demo_polygon_request].
Proof.
  apply (polygon_success_is_final world_polygon_up "AAPL" None None "1d" None initial_state);
    vm_compute; reflexivity.
Defined.

Lemma yahoo_stage_yahoo w ticker start end_ interval s :
  yahoo_stage w ticker start end_ interval "yahoo" None s
  = ((d ←ᵣ (_fetch_yahoo w ticker start end_ interval).1; Ok (Some d)),
     emit (_fetch_yahoo w ticker start end_ interval).2 s).
Proof.
  unfold yahoo_stage. change (PyStr.in_tuple "yahoo" ["yahoo"; "auto"]) with true.
  cbv iota. destruct (_fetch_yahoo w ticker start end_ interval). reflexivity.
Qed.

(** X10. With provider "yahoo" and no fresh cache entry the only effect
    on the outside world is one yfinance download: Polygon is never
    contacted and nothing is printed.  A Yahoo failure reaches the caller
    unchanged and leaves cache and heap as they were; on a Yahoo success
    the adapter's table is normalized once more, which cannot fail, and
    the outcome is returned and cached. *)
Theorem forced_yahoo_only_downloads w ticker start end_ interval provider s :
  resolve_provider provider = "yahoo" →
  cache_fresh w s (fetch_key w ticker start end_ interval provider) = false →
  (∀ e evy, yahoo_call w ticker start end_ interval = (Err e, evy) →
     ∃ s', fetch_ohlcv w ticker start end_ interval provider s = (Err e, s')
       ∧ trace s' = trace s ++ [YfDownload ticker (effective_start w start)
                                           (effective_end w end_) interval]
       ∧ _CACHE s' = _CACHE s ∧ heap s' = heap s)
  ∧ (∀ y evy, yahoo_call w ticker start end_ interval = (Ok y, evy) →
     ∃ l s' out, fetch_ohlcv w ticker start end_ interval provider s = (Ok l, s')
       ∧ _normalize_df w (Some y) = Ok out
       ∧ heap s' !! l = Some out
       ∧ cached_frame s' (fetch_key w ticker start end_ interval provider) = Some out
       ∧ trace s' = trace s ++ [YfDownload ticker (effective_start w start)
                                           (effective_end w end_) interval]).
Proof.
  intros Hprov Hmiss.
  set (key := fetch_key w ticker start end_ interval provider) in *.
  destruct (after_cache_test_frame w key s) as (Hh & Hc & Ht).
  assert (∀ r evy, yahoo_call w ticker start end_ interval = (r, evy) →
            evy = [YfDownload ticker (effective_start w start) (effective_end w end_) interval]
            ∧ fetch_ohlcv w ticker start end_ interval provider s
              = match r with
                | Err e => (Err e, emit evy (after_cache_test w key s))
                | Ok y => store_stage w key (Some y) (emit evy (after_cache_test w key s))
                end) as Hrun.
  { intros r evy Hy. split.
    - pose proof (fetch_yahoo_events w ticker (effective_start w start)
                    (effective_end w end_) interval) as Hev.
      unfold yahoo_call in Hy. rewrite Hy in Hev. exact Hev.
    - rewrite fetch_ohlcv_miss by exact Hmiss. fold key.
      unfold fetch_fresh. rewrite Hprov.
      rewrite polygon_stage_skipped by reflexivity.
      rewrite yahoo_stage_yahoo. unfold yahoo_call in Hy. rewrite Hy.
      destruct r; reflexivity. }
  split.
  - intros e evy Hy. destruct (Hrun _ _ Hy) as [-> ->]. eexists. split; [reflexivity|].
    cbn [trace emit _CACHE heap]. rewrite Ht, Hc, Hh. done.
  - intros y evy Hy. destruct (Hrun _ _ Hy) as [-> ->].
    unfold yahoo_call in Hy. apply fetch_yahoo_ok in Hy as (raw & _ & _ & Hn & _).
    apply normalize_fixed_point in Hn.
    edestruct (store_stage_ok w key (Some y) y) as (l & l' & _ & _ & Hne & ->);
      [exact Hn|].
    eexists l, _, y. split; [reflexivity|]. split; [exact Hn|].
    unfold cached_frame. cbn [heap _CACHE trace emit].
    rewrite lookup_insert_eq. cbn [mbind option_bind entry_df].
    rewrite lookup_insert_eq.
    rewrite lookup_insert_ne by done. rewrite lookup_insert_eq.
    rewrite Ht. done.
Qed.

Lemma forced_yahoo_only_downloads_witness :
  ∃ l s' out,
    fetch_ohlcv world_polygon_up "AAPL" None None "1d" (Some "YAHOO") initial_state
    = (Ok l, s')
    ∧ _normalize_df world_polygon_up (Some yahoo_bars) = Ok out
    ∧ heap s' !! l = Some out
    ∧ trace s' = trace initial_state ++ [demo_yahoo_request].
Proof.
  destruct (forced_yahoo_only_downloads world_polygon_up "AAPL" None None "1d" (Some "YAHOO")
              initial_state) as [_ Hok]; [vm_compute; reflexivity..|].
  destruct (Hok yahoo_bars [demo_yahoo_request]) as (l & s' & out & H & Hn & Hl & _ & Htr);
    [vm_compute; reflexivity|].
  exists l, s', out. split_and!; assumption.
Defined.

Lemma fetch_ohlcv_err_frame w ticker start end_ interval provider s e s' :
  fetch_ohlcv w ticker start end_ interval provider s = (Err e, s') →
  _CACHE s' = _CACHE s ∧ heap s' = heap s.
Proof.
  intros Hrun.
  set (key := fetch_key w ticker start end_ interval provider) in *.
  destruct (cache_fresh w s key) eqn:Hfresh.
  - apply cache_fresh_true in Hfresh as (e0 & Hlook & Hlt).
    rewrite (fetch_ohlcv_hit _ _ _ _ _ _ _ e0 Hlook Hlt) in Hrun. discriminate.
  - rewrite fetch_ohlcv_miss in Hrun by exact Hfresh. fold key in Hrun.
    destruct (after_cache_test_frame w key s) as (Hh & Hc & _).
    apply fetch_fresh_effects in Hrun as (evs & _ & _ & _ & Hcases).
    destruct Hcases as [(err' & _ & Hheap & Hcache)|(raw & out & l & l' & [=] & _)].
    rewrite Hheap, Hcache. done.
Qed.

(** X11. A call that raises writes nothing: the cache and every frame
    object are exactly as before the call, whichever step failed. *)
Theorem failed_call_changes_nothing w ticker start end_ interval provider s e s' :
  fetch_ohlcv w ticker start end_ interval provider s = (Err e, s') →
  _CACHE s' = _CACHE s ∧ heap s' = heap s.
Proof. apply fetch_ohlcv_err_frame. Qed.

Lemma failed_call_changes_nothing_witness :
  _CACHE (fetch_ohlcv world_polygon_down "AAPL" None None "1d" (Some "polygon")
                      (demo_cached_state 0)).2
  = _CACHE (demo_cached_state 0)
  ∧ heap (fetch_ohlcv world_polygon_down "AAPL" None None "1d" (Some "polygon")
                      (demo_cached_state 0)).2
    = heap (demo_cached_state 0).
Proof.
  apply (failed_call_changes_nothing world_polygon_down "AAPL" None None "1d" (Some "polygon")
           (demo_cached_state 0) connect_timeout).
  vm_compute. reflexivity.
Defined.

(** X12. A fresh fetch that returns writes exactly one cache entry: the
    entry under the call's key now refers to a new object holding the same
    table as the returned object, stamped with the clock reading taken
    after normalization; every other key, and every frame object that
    existed before, is untouched. *)
Theorem fresh_fetch_writes_one_entry w ticker start end_ interval provider s l s' :
  cache_fresh w s (fetch_key w ticker start end_ interval provider) = false →
  fetch_ohlcv w ticker start end_ interval provider s = (Ok l, s') →
  ∃ l' out,
    _CACHE s' = <[fetch_key w ticker start end_ interval provider :=
                    mkEntry (time_time w (clock_reads
                               (after_cache_test w
                                  (fetch_key w ticker start end_ interval provider) s))) l']>
                (_CACHE s)
    ∧ heap s' !! l = Some out
    ∧ heap s' !! l' = Some out
    ∧ l ≠ l'
    ∧ (∀ key, key ≠ fetch_key w ticker start end_ interval provider →
              _CACHE s' !! key = _CACHE s !! key)
    ∧ (∀ a, a ∈ dom (heap s) → heap s' !! a = heap s !! a).
Proof.
  intros Hmiss. rewrite fetch_ohlcv_miss by exact Hmiss.
  set (key := fetch_key w ticker start end_ interval provider) in *.
  destruct (after_cache_test_frame w key s) as (Hh & Hc & _).
  intros (evs & _ & _ & _ & Hcases)%fetch_fresh_effects.
  destruct Hcases as [(err & [=] & _)
                     |(raw & out & l0 & l' & [= <-] & _ & _ & Hl & Hl' & Hne & Hheap & Hcache)].
  rewrite Hh in Hl, Hl', Hheap. rewrite Hc in Hcache.
  exists l', out. rewrite Hheap, Hcache. split_and!.
  - reflexivity.
  - rewrite lookup_insert_ne by done. apply lookup_insert_eq.
  - apply lookup_insert_eq.
  - exact Hne.
  - intros k Hk. by rewrite lookup_insert_ne.
  - intros a Ha.
    assert (a ≠ l) by (intros ->; contradiction).
    assert (a ≠ l') by (intros ->; contradiction).
    by rewrite !lookup_insert_ne.
Qed.

Lemma fresh_fetch_writes_one_entry_witness :
  ∃ l' out,
    _CACHE (fetch_ohlcv world_no_key "AAPL" None None "1d" (Some "yahoo")
                        (demo_cached_state 100)).2
    = <[fetch_key world_no_key "AAPL" None None "1d" (Some "yahoo") :=
          mkEntry (time_time world_no_key (clock_reads
                     (after_cache_test world_no_key
                        (fetch_key world_no_key "AAPL" None None "1d" (Some "yahoo"))
                        (demo_cached_state 100)))) l']>
      (_CACHE (demo_cached_state 100))
    ∧ heap (fetch_ohlcv world_no_key "AAPL" None None "1d" (Some "yahoo")
                        (demo_cached_state 100)).2 !! 2%positive = Some out
    ∧ heap (fetch_ohlcv world_no_key "AAPL" None None "1d" (Some "yahoo")
                        (demo_cached_state 100)).2 !! l' = Some out.
Proof.
  destruct (fresh_fetch_writes_one_entry world_no_key "AAPL" None None "1d" (Some "yahoo")
              (demo_cached_state 100) 2%positive
              (fetch_ohlcv world_no_key "AAPL" None None "1d" (Some "yahoo")
                           (demo_cached_state 100)).2)
    as (l' & out & Hc & Hl & Hl' & _); [vm_compute; reflexivity..|].
  exists l', out. split_and!; assumption.
Defined.




Lemma store_stage_trace w key df s r s' :
  store_stage w key df s = (r, s') → trace s' = trace s.
Proof.
  intros [(e & _ & _ & ->)|(out & l & l' & _ & _ & _ & _ & _ & ->)]%store_stage_inv;
    reflexivity.
Qed.

(** The events of a run of the miss path: at most one Polygon request,
    then possibly the fallback warning, then at most one download. *)
Lemma fetch_fresh_events w ticker start end_ interval provider key s r s' :
  fetch_fresh w ticker start end_ interval provider key s = (r, s') →
  ∃ evp evy,
    (evp = [] ∨ ∃ url params, evp = [HttpGet url params])
    ∧ (evy = [] ∨ evy = [YfDownload ticker start end_ interval])
    ∧ (trace s' = trace s ++ evp ++ evy
       ∨ ∃ e, trace s' = trace s ++ evp ++ [fallback_warning e] ++ evy).
Proof.
  unfold fetch_fresh, polygon_stage.
  destruct (PyStr.in_tuple provider ["polygon"; "auto"]).
  - pose proof (fetch_polygon_events_shape w ticker (Some start) (Some end_) interval
                  (Some (default "" (env_POLYGON_API_KEY w)))) as Hshape.
    destruct (_fetch_polygon _ _ _ _ _ _) as [[raw|e] evp]; cbn [snd] in Hshape.
    + cbn [yahoo_stage]. intros H%store_stage_trace. exists evp, [].
      split_and!; [exact Hshape|by left|left]. rewrite H, app_nil_r. reflexivity.
    + destruct (String.eqb provider "polygon").
      * intros [= <- <-]. exists evp, [].
        split_and!; [exact Hshape|by left|left]. rewrite app_nil_r. reflexivity.
      * unfold yahoo_stage. destruct (PyStr.in_tuple provider ["yahoo"; "auto"]).
        -- pose proof (fetch_yahoo_events w ticker start end_ interval) as Hy.
           destruct (_fetch_yahoo w ticker start end_ interval) as [[y|ey] evy];
             cbn [snd rbind] in *; subst evy.
           ++ intros H%store_stage_trace. eexists evp, _.
              split_and!; [exact Hshape|by right|right; exists e].
              rewrite H. cbn [trace emit]. rewrite <- !app_assoc. reflexivity.
           ++ intros [= <- <-]. eexists evp, _.
              split_and!; [exact Hshape|by right|right; exists e].
              cbn [trace emit]. rewrite <- !app_assoc. reflexivity.
        -- intros H%store_stage_trace. exists evp, [].
           split_and!; [exact Hshape|by left|right; exists e].
           rewrite H. cbn [trace emit]. rewrite <- !app_assoc. reflexivity.
  - unfold yahoo_stage. destruct (PyStr.in_tuple provider ["yahoo"; "auto"]).
    + pose proof (fetch_yahoo_events w ticker start end_ interval) as Hy.
      destruct (_fetch_yahoo w ticker start end_ interval) as [[y|ey] evy];
        cbn [snd rbind] in *; subst evy.
      * intros H%store_stage_trace. eexists [], _.
        split_and!; [by left|by right|left]. rewrite H. reflexivity.
      * intros [= <- <-]. eexists [], _. split_and!; [by left|by right|left]. reflexivity.
    + intros H%store_stage_trace. exists [], [].
      split_and!; [by left|by left|left]. rewrite H, app_nil_r. reflexivity.
Qed.

(** X14. One call of [fetch_ohlcv] adds to the trace at most two network
    operations, of which at most one is a yfinance download, and at most
    one printed line; no operation is ever repeated within a call. *)
Theorem call_effects_are_bounded w ticker start end_ interval provider s :
  ∃ evs,
    trace (fetch_ohlcv w ticker start end_ interval provider s).2 = trace s ++ evs
    ∧ (count_events is_network evs ≤ 2)%nat
    ∧ (count_events is_yahoo_call evs ≤ 1)%nat
    ∧ (count_events is_print evs ≤ 1)%nat.
Proof.
  set (key := fetch_key w ticker start end_ interval provider).
  destruct (cache_fresh w s key) eqn:Hfresh.
  - apply cache_fresh_true in Hfresh as (e & Hlook & Hlt).
    rewrite (fetch_ohlcv_hit _ _ _ _ _ _ _ e Hlook Hlt). exists []. cbn.
    rewrite app_nil_r. split_and!; [reflexivity|lia..].
  - rewrite fetch_ohlcv_miss by exact Hfresh. fold key.
    destruct (after_cache_test_frame w key s) as (_ & _ & Ht).
    destruct (fetch_fresh _ _ _ _ _ _ _ _) as [r s'] eqn:Hrun.
    apply fetch_fresh_events in Hrun as (evp & evy & Hp & Hy & Htr).
    rewrite Ht in Htr. cbn [snd].
    destruct Htr as [->|[e ->]]; eexists; (split; [reflexivity|]);
      destruct Hp as [->|(url & params & ->)]; destruct Hy as [->| ->];
      cbn; lia.
Qed.

(** ** The cache holds tables with a Close in every row *)

Lemma cache_populated_initial : cache_populated initial_state.
Proof. intros key e H. cbn in H. rewrite lookup_empty in H. discriminate. Qed.

Lemma cache_populated_wf s : cache_populated s → cache_wf s.
Proof. intros H key e He. destruct (H key e He) as (df & -> & _). eauto. Qed.

(** X15. If every cached table has a non-null Close in every row and an
    Adj Close column (true of the empty cache), then so has every cached
    table after a call, whatever its outcome and whatever the caller later
    writes into the returned object; and every table returned, from the
    cache or freshly fetched, has them too. *)
Theorem results_have_close_and_adj_close w ticker start end_ interval provider s r s' :
  cache_populated s →
  fetch_ohlcv w ticker start end_ interval provider s = (r, s') →
  cache_populated s'
  ∧ (∀ l, r = Ok l →
       (∃ df, heap s' !! l = Some df
              ∧ column_populated "Close" df
              ∧ has_column "Adj Close" df = true)
       ∧ ∀ df', cache_populated (mutate l df' s')).
Proof.
  intros Hinv Hrun. pose proof (cache_populated_wf _ Hinv) as Hwf.
  destruct r as [l|err].
  2:{ destruct (fetch_ohlcv_err_frame _ _ _ _ _ _ _ _ _ Hrun) as [Hc Hh].
      split; [|intros l [=]]. intros key e. rewrite Hc, Hh. apply Hinv. }
  destruct (fetch_ohlcv_ok_heap _ _ _ _ _ _ _ _ _ Hwf Hrun) as (Hl & _ & Hne).
  assert (cache_populated s'
          ∧ ∃ df, heap s' !! l = Some df
                  ∧ column_populated "Close" df
                  ∧ has_column "Adj Close" df = true) as [Hinv' Hret].
  { set (key := fetch_key w ticker start end_ interval provider) in *.
    destruct (cache_fresh w s key) eqn:Hfresh.
    - apply cache_fresh_true in Hfresh as (e & Hlook & Hlt).
      rewrite (fetch_ohlcv_hit _ _ _ _ _ _ _ e Hlook Hlt) in Hrun.
      injection Hrun as <- <-. cbn [heap _CACHE] in *.
      destruct (Hinv _ _ Hlook) as (df & Hdf & Hpop). rewrite Hdf. cbn [default]. split.
      + intros k e' He'. cbn [heap _CACHE] in *.
        destruct (Hinv _ _ He') as (df' & Hdf' & Hpop').
        exists df'. split; [|exact Hpop'].
        rewrite lookup_insert_ne; [exact Hdf'|].
        intros Heq. apply (is_fresh (dom (heap s))). rewrite Heq.
        apply elem_of_dom. eauto.
      + exists df. split; [apply lookup_insert_eq|exact Hpop].
    - rewrite fetch_ohlcv_miss in Hrun by exact Hfresh. fold key in Hrun.
      destruct (after_cache_test_frame w key s) as (Hh & Hc & _).
      apply fetch_fresh_effects in Hrun as (evs & _ & _ & _ & Hcases).
      destruct Hcases as [(err & [=] & _)
                         |(raw & out & l0 & l' & [= <-] & _ & Hn & Hl0 & Hl' & Hll & Hheap & Hcache)].
      rewrite Hh in Hl0, Hl', Hheap. rewrite Hc in Hcache.
      assert (column_populated "Close" out ∧ has_column "Adj Close" out = true) as Hpop.
      { split; [eapply normalize_close_populated, Hn|eapply normalize_has_adj_close, Hn]. }
      unfold cache_populated. rewrite Hheap, Hcache. split.
      + intros k e'. destruct (decide (k = key)) as [->|Hk].
        * rewrite lookup_insert_eq. intros [= <-]. cbn [entry_df].
          exists out. split; [apply lookup_insert_eq|exact Hpop].
        * rewrite lookup_insert_ne by done. intros He'.
          destruct (Hinv _ _ He') as (df' & Hdf' & Hpop').
          assert (entry_df e' ∈ dom (heap s)) as Hdom by (apply elem_of_dom; eauto).
          assert (entry_df e' ≠ l) by (intros Heq; rewrite Heq in Hdom; contradiction).
          assert (entry_df e' ≠ l') by (intros Heq; rewrite Heq in Hdom; contradiction).
          exists df'. split; [|exact Hpop']. by rewrite !lookup_insert_ne.
      + exists out. split; [|exact Hpop]. rewrite lookup_insert_ne by done.
        apply lookup_insert_eq. }
  split; [exact Hinv'|]. intros l0 [= <-]. split; [exact Hret|].
  intros df' key e He. unfold mutate in *. cbn [heap _CACHE] in *.
  destruct (Hinv' _ _ He) as (df & Hdf & Hpop). exists df. split; [|exact Hpop].
  destruct (Hne _ _ He) as [Hneq _]. by rewrite lookup_insert_ne.
Qed.

Lemma results_have_close_and_adj_close_witness :
  cache_populated
    (fetch_ohlcv world_polygon_up "AAPL" None None "1d" None initial_state).2
  ∧ ∃ df, heap (fetch_ohlcv world_polygon_up "AAPL" None None "1d" None initial_state).2
            !! 1%positive = Some df
          ∧ column_populated "Close" df
          ∧ has_column "Adj Close" df = true.
Proof.
  destruct (results_have_close_and_adj_close world_polygon_up "AAPL" None None "1d" None
              initial_state (Ok 1%positive)
              (fetch_ohlcv world_polygon_up "AAPL" None None "1d" None initial_state).2
              cache_populated_initial) as [Hinv Hret];
    [vm_compute; reflexivity|].
  split; [exact Hinv|]. destruct (Hret 1%positive eq_refl) as [Hdf _]. exact Hdf.
Defined.

(** ** More on the cache key *)

Lemma items_le_trans : Transitive items_le.
Proof. intros a b c. unfold items_le. apply transitivity. Qed.

Lemma items_le_total : Total items_le.
Proof. intros a b. unfold items_le. apply (total String.le). Qed.

Lemma NoDup_fst_inj (l : list (string * string)) x y :
  NoDup l.*1 → x ∈ l → y ∈ l → x.1 = y.1 → x = y.
Proof.
  induction l as [|z l IH]; intros Hnd Hx Hy Heq; [by apply elem_of_nil in Hx|].
  rewrite fmap_cons in Hnd. apply NoDup_cons in Hnd as [Hz Hnd].
  apply elem_of_cons in Hx as [->|Hx], Hy as [->|Hy].
  - reflexivity.
  - exfalso. apply Hz. rewrite Heq. apply list_elem_of_fmap. eauto.
  - exfalso. apply Hz. rewrite <- Heq. apply list_elem_of_fmap. eauto.
  - by apply IH.
Qed.

(** X16. The key does not depend on the order in which the keyword
    arguments are given: for distinct keyword names, any rearrangement of
    the same name/value pairs produces the same string. *)
Theorem cache_key_ignores_argument_order (kw1 kw2 : list (string * string)) :
  NoDup kw1.*1 → kw1 ≡ₚ kw2 → _cache_key kw1 = _cache_key kw2.
Proof.
  intros Hnd Hperm. unfold _cache_key. f_equal. f_equal.
  apply (StronglySorted_unique_strong items_le).
  - intros x1 x2 Hx1 Hx2 H12 H21.
    rewrite merge_sort_Permutation in Hx1, Hx2. rewrite <- Hperm in Hx2.
    apply (NoDup_fst_inj kw1); [done..|].
    unfold items_le in *. by apply (anti_symm String.le).
  - apply (@StronglySorted_merge_sort _ items_le _ items_le_trans items_le_total).
  - apply (@StronglySorted_merge_sort _ items_le _ items_le_trans items_le_total).
  - rewrite !merge_sort_Permutation. exact Hperm.
Qed.

Lemma cache_key_ignores_argument_order_witness :
  _cache_key [("ticker", "AAPL"); ("start", "a"); ("end", "b"); ("interval", "1d");
              ("provider", "auto")]
  = _cache_key [("provider", "auto"); ("interval", "1d"); ("end", "b"); ("start", "a");
                ("ticker", "AAPL")].
Proof.
  apply cache_key_ignores_argument_order.
  - apply (bool_decide_unpack _). vm_compute. reflexivity.
  - change [("provider", "auto"); ("interval", "1d"); ("end", "b"); ("start", "a");
            ("ticker", "AAPL")]
      with (reverse [("ticker", "AAPL"); ("start", "a"); ("end", "b"); ("interval", "1d");
                     ("provider", "auto")]).
    symmetry. apply reverse_Permutation.
Defined.

Lemma upper_lower s : PyStr.upper (PyStr.lower s) = PyStr.upper s.
Proof.
  induction s as [|c s IH]; [reflexivity|]. cbn [PyStr.lower PyStr.upper].
  rewrite IH. f_equal. revert c. intros [[] [] [] [] [] [] [] []]; reflexivity.
Qed.

Lemma lower_upper s : PyStr.lower (PyStr.upper s) = PyStr.lower s.
Proof.
  induction s as [|c s IH]; [reflexivity|]. cbn [PyStr.lower PyStr.upper].
  rewrite IH. f_equal. revert c. intros [[] [] [] [] [] [] [] []]; reflexivity.
Qed.

(** X17. For an ASCII ticker and an ASCII provider name the key is
    blind to letter case: the request written with the ticker in lower
    case and the provider in upper case looks up and stores under the same
    key as the request as given. *)
Theorem fetch_key_ignores_case w ticker start end_ interval provider :
  PyStr.is_ascii ticker = true →
  PyStr.is_ascii provider = true →
  fetch_key w (PyStr.lower ticker) start end_ interval (Some (PyStr.upper provider))
  = fetch_key w ticker start end_ interval (Some provider).
Proof.
  intros _ _.
  unfold fetch_key, request_key, resolve_provider, opt_or_else, PyStr.or_else.
  rewrite upper_lower.
  replace (PyStr.is_empty (PyStr.upper provider)) with (PyStr.is_empty provider)
    by (destruct provider; reflexivity).
  destruct (PyStr.is_empty provider); [reflexivity|].
  rewrite lower_upper. reflexivity.
Qed.

Lemma fetch_key_ignores_case_witness :
  fetch_key world_no_key (PyStr.lower "Aapl") None None "1d" (Some (PyStr.upper "Yahoo"))
  = fetch_key world_no_key "Aapl" None None "1d" (Some "Yahoo").
Proof. apply fetch_key_ignores_case; reflexivity. Defined.
